(** * P3: episode lifecycle and error-recovery commands

    A shallow embedding of the recovery and batch commands of
    [p3/cli.py] ([retry], [mark_processed], [errors], [digest],
    [export], [write]) and of [p3/migrate_db.py].

    The episode store [P3Database] (p3/database.py), the summarizer
    [TranscriptCleaner] (p3/cleaner.py) and the exporter are not part of
    the sources at hand; the operations the commands call on them are
    modelled from the specification of the episode store (section 4.1)
    and of the stage-executor contract (sections 4.2 and 6). Each such
    definition says so in its doc comment. *)

From Stdlib Require Import ZArith String Ascii Bool.
From stdpp Require Import gmap strings list fin_maps.

Open Scope string_scope.

(* ================================================================= *)
(** ** Data model *)

(** One row of the [episodes] table. [note] is the informational note of
    the spec's force-mark-processed, [summary] the stage artifact. *)
Record episode := mkEpisode {
  podcast_title : string;
  title : string;
  status : string;
  error_count : Z;
  last_error : option string;
  error_timestamp : option Z;
  note : option string;
  summary : option string
}.

(** The store: episode id -> episode row. *)
Abbreviation store := (gmap Z episode).

(** Console lines printed by the commands, one constructor per
    [console.print] that the claims are about. *)
Inductive msg :=
  | MsgEpisodeNotFound (i : Z)
  | MsgResetErrorsFor (i : Z)
  | MsgReadyForRetry (i : Z)
  | MsgNoFailedEpisodes
  | MsgFoundFailed (n : nat)
  | MsgResetTitle (t : string)
  | MsgResetForRetry (n : nat)
  | MsgSpecifyIdOrAll
  | MsgMarked (i : Z) (t : string)
  | MsgReason (r : string)
  | MsgNoErrorEpisodesFor (p : string)
  | MsgFoundErrorEpisodes (n : nat) (p : string)
  | MsgMarkedTitle (t : string)
  | MsgMarkedN (n : nat)
  | MsgSpecifyIdOrPodcast
  | MsgEpisodeProcessed (i : Z)
  | MsgEpisodeFailed (i : Z)
  | MsgNoEpisodesToProcess
  | MsgSkipExceeded (t : string)
  | MsgProcessedN (n : nat)
  | MsgFailedN (n : nat)
  | MsgNoErrors
  | MsgErrorRow (i : Z) (p t st : string) (ec : Z).

(** Python truthiness of the [--episode-id] option ([type=int], default
    [None]): [if episode_id:] takes the branch only for a non-zero int. *)
Definition py_truthy_int (o : option Z) : option Z :=
  match o with
  | Some i => if Z.eqb i 0 then None else Some i
  | None => None
  end.

(** Python truthiness of a string option ([--podcast], default [None]). *)
Definition py_truthy_str (o : option string) : option string :=
  match o with
  | Some EmptyString => None
  | Some s => Some s
  | None => None
  end.

(** [str.lower], on the ASCII letters. *)
Definition ascii_lower (c : ascii) : ascii :=
  let n := nat_of_ascii c in
  if (Nat.leb 65 n && Nat.leb n 90)%bool then ascii_of_nat (n + 32) else c.

Fixpoint str_lower (s : string) : string :=
  match s with
  | EmptyString => EmptyString
  | String c s' => String (ascii_lower c) (str_lower s')
  end.

(** Python's [needle in hay] on strings (substring test). *)
Fixpoint py_in (needle hay : string) : bool :=
  (String.prefix needle hay ||
   match hay with
   | EmptyString => false
   | String _ hay' => py_in needle hay'
   end)%bool.

(* ================================================================= *)
(** ** The episode store *)

Module P3Database.

(** Modelled from the spec: [get_episode_by_id] of p3/database.py
    (spec 4.1 [get(id)]: point lookup). *)
Definition get_episode_by_id (db : store) (i : Z) : option episode := db !! i.

(** Modelled from the spec: [get_episodes_by_status] of p3/database.py
    (spec 4.1 [list_by_status]). *)
Definition get_episodes_by_status (db : store) (s : string) : list (Z * episode) :=
  List.filter (fun ie => String.eqb (status ie.2) s) (map_to_list db).

(** Modelled from the spec: [get_error_episodes] of p3/database.py
    (spec 4.1 [list_errored]: all episodes with [error_count > 0],
    regardless of status). *)
Definition get_error_episodes (db : store) : list (Z * episode) :=
  List.filter (fun ie => Z.ltb 0 (error_count ie.2)) (map_to_list db).

Definition clear_errors (e : episode) : episode :=
  {| podcast_title := podcast_title e; title := title e; status := status e;
     error_count := 0; last_error := None; error_timestamp := None;
     note := note e; summary := summary e |}.

Definition set_status (s : string) (e : episode) : episode :=
  {| podcast_title := podcast_title e; title := title e; status := s;
     error_count := error_count e; last_error := last_error e;
     error_timestamp := error_timestamp e; note := note e;
     summary := summary e |}.

Definition set_processed_note (reason : option string) (e : episode) : episode :=
  {| podcast_title := podcast_title e; title := title e; status := "processed";
     error_count := error_count e; last_error := last_error e;
     error_timestamp := error_timestamp e; note := reason;
     summary := summary e |}.

Definition bump_error (message : string) (now : Z) (e : episode) : episode :=
  {| podcast_title := podcast_title e; title := title e; status := status e;
     error_count := error_count e + 1; last_error := Some message;
     error_timestamp := Some now; note := note e; summary := summary e |}.

Definition advance (s : string) (artifact : string) (e : episode) : episode :=
  {| podcast_title := podcast_title e; title := title e; status := s;
     error_count := error_count e; last_error := last_error e;
     error_timestamp := error_timestamp e; note := note e;
     summary := Some artifact |}.

(** Modelled from the spec: [reset_episode_errors] of p3/database.py
    (spec 4.1 [reset_errors(id)]: zero [error_count], null [last_error]
    and [error_timestamp]; an UPDATE of a missing id changes nothing). *)
Definition reset_episode_errors (db : store) (i : Z) : store :=
  alter clear_errors i db.

(** Modelled from the spec: [update_episode_status] of p3/database.py
    (spec 4.1 [set_status(id, status)]). *)
Definition update_episode_status (db : store) (i : Z) (s : string) : store :=
  alter (set_status s) i db.

(** Modelled from the spec: [mark_episode_as_processed] of
    p3/database.py (spec 4.3 force-mark-processed: [status = 'processed'],
    [reason] recorded as an informational note, not as [last_error]). *)
Definition mark_episode_as_processed (db : store) (i : Z) (reason : option string) : store :=
  alter (set_processed_note reason) i db.

(** Modelled from the spec: spec 4.1 [record_failure(id, message)]. *)
Definition record_failure (db : store) (i : Z) (message : string) (now : Z) : store :=
  alter (bump_error message now) i db.

(** Modelled from the spec: spec 4.1 [record_success(id, new_status,
    artifact)]. *)
Definition record_success (db : store) (i : Z) (s : string) (artifact : string) : store :=
  alter (advance s artifact) i db.

End P3Database.

Import P3Database.

(* ================================================================= *)
(** ** [retry] (cli.py lines 324-365) *)

Fixpoint retry_all_loop (db : store) (eps : list (Z * episode)) (reset_errors : bool)
  : store * list msg :=
  match eps with
  | [] => (db, [])
  | (i, e) :: rest =>
      let db1 := if reset_errors then reset_episode_errors db i else db in
      let db2 := update_episode_status db1 i "downloaded" in
      let '(db3, ms) := retry_all_loop db2 rest reset_errors in
      (db3, MsgResetTitle (title e) :: ms)
  end.

Definition retry (db : store) (episode_id : option Z) (all reset_errors : bool)
  : store * list msg :=
  match py_truthy_int episode_id with
  | Some i =>
      match get_episode_by_id db i with
      | None => (db, [MsgEpisodeNotFound i])
      | Some _ =>
          let '(db1, m1) :=
            if reset_errors then (reset_episode_errors db i, [MsgResetErrorsFor i])
            else (db, []) in
          (update_episode_status db1 i "downloaded", (m1 ++ [MsgReadyForRetry i])%list)
      end
  | None =>
      if all then
        let error_episodes := get_error_episodes db in
        match error_episodes with
        | [] => (db, [MsgNoFailedEpisodes])
        | _ =>
            let '(db', ms) := retry_all_loop db error_episodes reset_errors in
            (db', (MsgFoundFailed (length error_episodes) :: ms
                    ++ [MsgResetForRetry (length error_episodes)])%list)
        end
      else (db, [MsgSpecifyIdOrAll])
  end.

(* ================================================================= *)
(** ** [mark_processed] (cli.py lines 282-321) *)

(** [podcast.lower() in e['podcast_title'].lower()] *)
Definition podcast_matches (podcast : string) (ie : Z * episode) : bool :=
  py_in (str_lower podcast) (str_lower (podcast_title ie.2)).

Fixpoint mark_loop (db : store) (eps : list (Z * episode)) (reason : option string)
  : store * list msg :=
  match eps with
  | [] => (db, [])
  | (i, e) :: rest =>
      let db1 := mark_episode_as_processed db i reason in
      let '(db2, ms) := mark_loop db1 rest reason in
      (db2, MsgMarkedTitle (title e) :: ms)
  end.

Definition mark_processed (db : store) (episode_id : option Z)
    (podcast reason : option string) : store * list msg :=
  match py_truthy_int episode_id with
  | Some i =>
      match get_episode_by_id db i with
      | None => (db, [MsgEpisodeNotFound i])
      | Some e =>
          (mark_episode_as_processed db i reason,
           MsgMarked i (title e)
             :: match py_truthy_str reason with Some r => [MsgReason r] | None => [] end)
      end
  | None =>
      match py_truthy_str podcast with
      | Some p =>
          let error_episodes := get_error_episodes db in
          let podcast_episodes := List.filter (podcast_matches p) error_episodes in
          match podcast_episodes with
          | [] => (db, [MsgNoErrorEpisodesFor p])
          | _ =>
              let '(db', ms) := mark_loop db podcast_episodes reason in
              (db', (MsgFoundErrorEpisodes (length podcast_episodes) p :: ms
                       ++ [MsgMarkedN (length podcast_episodes)])%list)
          end
      | None => (db, [MsgSpecifyIdOrPodcast])
      end
  end.

(* ================================================================= *)
(** ** [errors] (cli.py lines 368-413) *)

(** One table row: id, podcast title [:30], title [:40], status,
    error count (the [--show-all] columns are display-only and left out). *)
Definition error_row (ie : Z * episode) : msg :=
  MsgErrorRow ie.1 (substring 0 30 (podcast_title ie.2)) (substring 0 40 (title ie.2))
    (status ie.2) (error_count ie.2).

Definition errors (db : store) : list msg :=
  match get_error_episodes db with
  | [] => [MsgNoErrors]
  | error_episodes => map error_row error_episodes
  end.

(** The ids listed by [errors]. *)
Definition errors_listed_ids (db : store) : list Z :=
  match get_error_episodes db with
  | [] => []
  | error_episodes => map fst error_episodes
  end.

(* ================================================================= *)
(** ** [digest] (cli.py lines 135-194) *)

(** Outcome of a stage executor (spec 6: success with an artifact, or
    failure with a reason). *)
Inductive stage_result :=
  | StageSuccess (artifact : string)
  | StageFailure (reason : string).

(** Result of the batch loop; [b_calls] is a ghost log of the
    [generate_summary] calls and their boolean results, in order. *)
Record batch_out := mkBatch {
  b_store : store;
  b_processed : nat;
  b_failed : nat;
  b_msgs : list msg;
  b_calls : list (Z * bool)
}.

Section Digest.

(** The LLM summarization stage executor and the wall clock. *)
Variable summarize : Z -> episode -> stage_result.
Variable now : Z.

(** Modelled from the spec: [TranscriptCleaner.generate_summary] of
    p3/cleaner.py, following spec 4.2 steps 1-4: re-check eligibility
    (status [transcribed]; with [skip_errors], no previous error), call
    the executor, and record success (status [processed], artifact) or
    failure (error fields, status unchanged); returns whether it
    succeeded. *)
Definition generate_summary (db : store) (i : Z) (skip_errors : bool) : bool * store :=
  match db !! i with
  | None => (false, db)
  | Some e =>
      if (negb (String.eqb (status e) "transcribed")
          || (skip_errors && Z.ltb 0 (error_count e)))%bool
      then (false, db)
      else
        match summarize i e with
        | StageSuccess a => (true, record_success db i "processed" a)
        | StageFailure r => (false, record_failure db i r now)
        end
  end.

(** The [for episode in track(episodes, ...)] loop, lines 177-189. *)
Fixpoint digest_loop (db : store) (eps : list (Z * episode)) (skip_errors : bool)
    (max_retries : Z) (processed failed : nat) : batch_out :=
  match eps with
  | [] => mkBatch db processed failed [] []
  | (i, e) :: rest =>
      if Z.leb max_retries (error_count e) then
        let o := digest_loop db rest skip_errors max_retries processed failed in
        mkBatch (b_store o) (b_processed o) (b_failed o)
          (MsgSkipExceeded (substring 0 40 (title e)) :: b_msgs o) (b_calls o)
      else
        let '(result, db1) := generate_summary db i skip_errors in
        let o := digest_loop db1 rest skip_errors max_retries
                   (if result then S processed else processed)
                   (if result then failed else S failed) in
        mkBatch (b_store o) (b_processed o) (b_failed o) (b_msgs o)
          ((i, result) :: b_calls o)
  end.

Definition digest (db : store) (episode_id : option Z) (skip_errors : bool)
    (max_retries : Z) : store * list msg * list (Z * bool) :=
  match py_truthy_int episode_id with
  | Some i =>
      let '(result, db1) := generate_summary db i skip_errors in
      (db1, [if result then MsgEpisodeProcessed i else MsgEpisodeFailed i], [(i, result)])
  | None =>
      let episodes := get_episodes_by_status db "transcribed" in
      match episodes with
      | [] => (db, [MsgNoEpisodesToProcess], [])
      | _ =>
          let o := digest_loop db episodes skip_errors max_retries 0 0 in
          (b_store o,
           (b_msgs o ++ [MsgProcessedN (b_processed o)]
              ++ (if Nat.ltb 0 (b_failed o) then [MsgFailedN (b_failed o)] else []))%list,
           b_calls o)
      end
  end.

End Digest.

(* ================================================================= *)
(** ** [datetime.strptime(date, '%Y-%m-%d')] *)

(** Python's [_strptime] compiles ['%Y-%m-%d'] to the regex
    [(?P<Y>\d\d\d\d)-(?P<m>1[0-2]|0[1-9]|[1-9])-(?P<d>3[0-1]|[1-2]\d|0[1-9]|[1-9]| [1-9])],
    takes the first match of [re.match] (alternatives tried left to
    right, with backtracking), raises [ValueError] if it does not reach
    the end of the string ("unconverted data remains"), and then builds
    [datetime_date(year, month, day)], which raises for year 0 or a day
    past the end of the month. Digits are the ASCII ones. *)

Definition is_digit (c : ascii) : bool :=
  let n := nat_of_ascii c in (Nat.leb 48 n && Nat.leb n 57)%bool.

Definition in_range (c lo hi : ascii) : bool :=
  (Nat.leb (nat_of_ascii lo) (nat_of_ascii c) && Nat.leb (nat_of_ascii c) (nat_of_ascii hi))%bool.

Definition dval (c : ascii) : Z := Z.of_nat (nat_of_ascii c) - 48.

(** Each regex piece returns its matches in the order [re] tries them. *)
Definition re_Y (s : list ascii) : list (Z * list ascii) :=
  match s with
  | a :: b :: c :: d :: r =>
      if forallb is_digit [a; b; c; d]
      then [((dval a * 1000 + dval b * 100 + dval c * 10 + dval d)%Z, r)]
      else []
  | _ => []
  end.

Definition re_m (s : list ascii) : list (Z * list ascii) :=
  ((match s with
    | a :: b :: r => if (Ascii.eqb a "1" && in_range b "0" "2")%bool
                     then [((10 + dval b)%Z, r)] else []
    | _ => [] end)
   ++ (match s with
       | a :: b :: r => if (Ascii.eqb a "0" && in_range b "1" "9")%bool
                        then [(dval b, r)] else []
       | _ => [] end)
   ++ (match s with
       | a :: r => if in_range a "1" "9" then [(dval a, r)] else []
       | _ => [] end))%list.

Definition re_d (s : list ascii) : list (Z * list ascii) :=
  ((match s with
    | a :: b :: r => if (Ascii.eqb a "3" && in_range b "0" "1")%bool
                     then [((30 + dval b)%Z, r)] else []
    | _ => [] end)
   ++ (match s with
       | a :: b :: r => if (in_range a "1" "2" && is_digit b)%bool
                        then [((dval a * 10 + dval b)%Z, r)] else []
       | _ => [] end)
   ++ (match s with
       | a :: b :: r => if (Ascii.eqb a "0" && in_range b "1" "9")%bool
                        then [(dval b, r)] else []
       | _ => [] end)
   ++ (match s with
       | a :: r => if in_range a "1" "9" then [(dval a, r)] else []
       | _ => [] end)
   ++ (match s with
       | a :: b :: r => if (Ascii.eqb a " " && in_range b "1" "9")%bool
                        then [(dval b, r)] else []
       | _ => [] end))%list.

Definition re_dash (s : list ascii) : list (list ascii) :=
  match s with
  | a :: r => if Ascii.eqb a "-" then [r] else []
  | [] => []
  end.

(** All matches of the whole pattern, in backtracking order. *)
Definition re_ymd (s : list ascii) : list (Z * Z * Z * list ascii) :=
  flat_map (fun yr =>
    flat_map (fun r1 =>
      flat_map (fun mr =>
        flat_map (fun r2 =>
          map (fun dr => (yr.1, mr.1, dr.1, dr.2)) (re_d r2))
        (re_dash mr.2))
      (re_m r1))
    (re_dash yr.2))
  (re_Y s).

Definition is_leap (y : Z) : bool :=
  (Z.eqb (y mod 4) 0 && (negb (Z.eqb (y mod 100) 0) || Z.eqb (y mod 400) 0))%bool%Z.

Definition days_in_month (y m : Z) : Z :=
  (if Z.eqb m 2 then (if is_leap y then 29 else 28)
   else if existsb (Z.eqb m) [4; 6; 9; 11] then 30 else 31)%Z.

(** [datetime_date(year, month, day)] accepts the date. *)
Definition valid_date (y m d : Z) : bool :=
  (Z.leb 1 y && Z.leb y 9999 && Z.leb 1 m && Z.leb m 12
   && Z.leb 1 d && Z.leb d (days_in_month y m))%bool%Z.

(** [None] where [strptime] raises [ValueError]. *)
Definition strptime_ymd (s : string) : option (Z * Z * Z) :=
  match re_ymd (list_ascii_of_string s) with
  | [] => None
  | (y, m, d, rest) :: _ =>
      match rest with
      | [] => if valid_date y m d then Some (y, m, d) else None
      | _ :: _ => None
      end
  end.

(** The spec's "YYYY-MM-DD form": four digits, dash, two digits, dash,
    two digits. *)
Definition is_yyyy_mm_dd (s : string) : bool :=
  match list_ascii_of_string s with
  | [y1; y2; y3; y4; d1; m1; m2; d2; a1; a2] =>
      (forallb is_digit [y1; y2; y3; y4; m1; m2; a1; a2]
       && Ascii.eqb d1 "-" && Ascii.eqb d2 "-")%bool
  | _ => false
  end.

(* ================================================================= *)
(** ** [export] and [write] (cli.py lines 197-245 and 416-496) *)

Definition date := (Z * Z * Z)%type.

(** The effects of a command, in order. *)
Inductive action :=
  | ActLoadConfig
  | ActPrintInvalidDate
  | ActQuerySummaries (d : date)
  | ActPrintNoSummaries (d : date)
  | ActWriteFile (output : option string) (ext : string) (d : date)
      (* [open(output or f"digest_{d}.{ext}", 'w').write(...)] *)
  | ActPrintUnsupported (fmt : string)
  | ActGenerateBlogPost (topic : string)
  | ActSaveBlogPost
  | ActGenerateSocialPosts.

(** [if date: try strptime ... except ValueError: print; return;
    else: datetime.now()]; [None] stands for the early return. *)
Definition parse_date_option (date_opt : option string) (today : date) : option date :=
  match py_truthy_str date_opt with
  | Some s => strptime_ymd s
  | None => Some today
  end.

Fixpoint export_formats (fmts : list string) (output : option string) (d : date) : list action :=
  match fmts with
  | [] => []
  | fmt :: rest =>
      (if String.eqb fmt "markdown" then [ActWriteFile output "md" d]
       else if String.eqb fmt "json" then [ActWriteFile output "json" d]
       else [ActPrintUnsupported fmt]) ++ export_formats rest output d
  end%list.

(** [export]; [summaries_by_date] answers [db.get_summaries_by_date],
    [config_formats] is the config's [export_format] (default
    [['markdown']]). *)
Definition export (date_opt : option string) (format : list string) (output : option string)
    (config_formats : list string) (today : date) (summaries_by_date : date -> list string)
  : list action :=
  ActLoadConfig ::
  match parse_date_option date_opt today with
  | None => [ActPrintInvalidDate]
  | Some d =>
      let formats := match format with [] => config_formats | _ => format end in
      ActQuerySummaries d ::
      match summaries_by_date d with
      | [] => [ActPrintNoSummaries d]
      | _ => export_formats formats output d
      end
  end.

(** [write] (the blog-post command). *)
Definition write (topic : string) (date_opt : option string) (today : date)
    (summaries_by_date : date -> list string) : list action :=
  ActLoadConfig ::
  match parse_date_option date_opt today with
  | None => [ActPrintInvalidDate]
  | Some d =>
      ActQuerySummaries d ::
      match summaries_by_date d with
      | [] => [ActPrintNoSummaries d]
      | _ => [ActGenerateBlogPost topic; ActSaveBlogPost; ActGenerateSocialPosts]
      end
  end.

(** [strptime] on a few inputs, as Python 3.11 answers them. *)
Example strptime_canonical : strptime_ymd "2024-01-05" = Some (2024, 1, 5)%Z.
Proof. reflexivity. Qed.

Example strptime_single_digits : strptime_ymd "2024-1-5" = Some (2024, 1, 5)%Z.
Proof. reflexivity. Qed.

Example strptime_bad_day : strptime_ymd "2023-02-29" = None.
Proof. reflexivity. Qed.

Example strptime_trailing : strptime_ymd "2024-10-010" = None.
Proof. reflexivity. Qed.

(* ================================================================= *)
(** ** [migrate_database] (migrate_db.py) *)

(** A row of the [episodes] table as SQL sees it: [status] is a
    nullable TEXT column; the other columns play no part here. *)
Record sql_row := mkRow {
  row_id : Z;
  row_status : option string
}.

(** The [episodes] table: its columns (name, type) in order, and rows. *)
Record table := mkTable {
  tbl_columns : list (string * string);
  tbl_rows : list sql_row
}.

(** The database file; [None] when it has no [episodes] table. *)
Record database := mkDatabase {
  episodes_table : option table
}.

Definition tracked_columns : list string := ["error_count"; "last_error"; "error_timestamp"].

Definition valid_statuses : list string := ["downloaded"; "transcribed"; "processed"; "failed"].

(** [SELECT column_name FROM information_schema.columns WHERE table_name =
    'episodes' AND column_name IN (...)]: empty when there is no table. *)
Definition existing_columns (db : database) : list string :=
  match episodes_table db with
  | None => []
  | Some t => List.filter (fun c => existsb (String.eqb c) tracked_columns) (map fst (tbl_columns t))
  end.

(** [ALTER TABLE episodes ADD COLUMN c ty]; [None] when it raises (no
    table). *)
Definition alter_add_column (db : database) (c ty : string) : option database :=
  match episodes_table db with
  | None => None
  | Some t => Some (mkDatabase (Some (mkTable (tbl_columns t ++ [(c, ty)]) (tbl_rows t))))
  end.

(** [if c not in existing_columns: conn.execute("ALTER TABLE ...")] *)
Definition add_if_missing (existing : list string) (c ty : string) (odb : option database)
  : option database :=
  match odb with
  | None => None
  | Some db => if existsb (String.eqb c) existing then Some db else alter_add_column db c ty
  end.

(** SQL [v NOT IN (...)] in three-valued logic: unknown on NULL. *)
Definition sql_not_in (v : option string) (l : list string) : option bool :=
  match v with
  | None => None
  | Some s => Some (negb (existsb (String.eqb s) l))
  end.

(** [UPDATE episodes SET status = 'downloaded' WHERE status NOT IN (...)]:
    a row is updated when the condition is true (not unknown). *)
Definition normalize_row (r : sql_row) : sql_row :=
  match sql_not_in (row_status r) valid_statuses with
  | Some true => mkRow (row_id r) (Some "downloaded")
  | _ => r
  end.

Definition update_stuck_statuses (db : database) : database :=
  match episodes_table db with
  | None => db
  | Some t => mkDatabase (Some (mkTable (tbl_columns t) (map normalize_row (tbl_rows t))))
  end.

(** [migrate_database]: the database afterwards and the return value.
    The only statement that can raise is the first [ALTER TABLE] when
    the table is missing, before anything was changed, so the failure
    path returns the database unchanged with [False]. *)
Definition migrate_database (db : database) : database * bool :=
  let existing := existing_columns db in
  match add_if_missing existing "error_timestamp" "TIMESTAMP"
          (add_if_missing existing "last_error" "TEXT"
             (add_if_missing existing "error_count" "INTEGER" (Some db))) with
  | None => (db, false)
  | Some db1 => (update_stuck_statuses db1, true)
  end.

(** The status of every row is one of the four values. *)
Definition statuses_valid (db : database) : Prop :=
  match episodes_table db with
  | None => True
  | Some t => Forall (fun r => exists s, row_status r = Some s /\ In s valid_statuses) (tbl_rows t)
  end.

(* ================================================================= *)
(** * Properties *)

(** ** Store lemmas *)

Lemma in_filter_map_to_list (db : store) (p : Z * episode -> bool) i e :
  In (i, e) (List.filter p (map_to_list db)) <-> db !! i = Some e /\ p (i, e) = true.
Proof.
  rewrite filter_In, <- list_elem_of_In, elem_of_map_to_list. tauto.
Qed.

Lemma in_keys_filter_map_to_list (db : store) (p : Z * episode -> bool) i :
  In i (map fst (List.filter p (map_to_list db))) <->
  exists e, db !! i = Some e /\ p (i, e) = true.
Proof.
  rewrite in_map_iff. split.
  - intros [[j e] [Hj Hin]]. simpl in Hj. subst j.
    apply in_filter_map_to_list in Hin. eauto.
  - intros [e He]. exists (i, e). split; [done|]. by apply in_filter_map_to_list.
Qed.

Lemma errors_listed_ids_spec (db : store) i :
  In i (errors_listed_ids db) <-> exists e, db !! i = Some e /\ (0 < error_count e)%Z.
Proof.
  unfold errors_listed_ids.
  assert (Hk : In i (map fst (get_error_episodes db)) <->
               exists e, db !! i = Some e /\ (0 < error_count e)%Z).
  { unfold get_error_episodes. rewrite in_keys_filter_map_to_list.
    setoid_rewrite Z.ltb_lt. tauto. }
  destruct (get_error_episodes db) eqn:E; [|exact Hk].
  simpl in Hk. split; [done|]. intros H. by apply Hk.
Qed.

Lemma alter_alter_same (f g : episode -> episode) (db : store) i :
  alter f i (alter g i db) = alter (fun e => f (g e)) i db.
Proof.
  apply map_eq. intros j. destruct (decide (i = j)) as [->|Hne].
  - rewrite !lookup_alter_eq. by destruct (db !! j).
  - by rewrite !lookup_alter_ne.
Qed.

(** ** [retry] *)

(** What [retry --all] does to one errored episode. *)
Definition retry_effect (reset_errors : bool) (e : episode) : episode :=
  set_status "downloaded" (if reset_errors then clear_errors e else e).

Lemma retry_effect_idem r e : retry_effect r (retry_effect r e) = retry_effect r e.
Proof. by destruct r. Qed.

Lemma retry_all_loop_lookup (db : store) eps r j :
  (retry_all_loop db eps r).1 !! j =
  if existsb (Z.eqb j) (map fst eps) then retry_effect r <$> db !! j else db !! j.
Proof.
  revert db. induction eps as [|[i e] rest IH]; intros db; simpl; [done|].
  destruct (retry_all_loop _ rest r) as [db3 ms] eqn:Hl.
  specialize (IH (update_episode_status (if r then reset_episode_errors db i else db) i
                    "downloaded")).
  rewrite Hl in IH. simpl in IH |- *. rewrite IH.
  assert (Hstep : update_episode_status (if r then reset_episode_errors db i else db) i
                    "downloaded" = alter (retry_effect r) i db).
  { unfold update_episode_status, reset_episode_errors, retry_effect.
    destruct r; [by rewrite alter_alter_same|].
    reflexivity. }
  rewrite Hstep.
  destruct (Z.eqb_spec j i) as [->|Hne]; simpl.
  - rewrite lookup_alter_eq. destruct (existsb _ _); [|done].
    destruct (db !! i); simpl; [by rewrite retry_effect_idem|done].
  - by rewrite lookup_alter_ne by congruence.
Qed.

Lemma existsb_errored_keys (db : store) j :
  existsb (Z.eqb j) (map fst (get_error_episodes db)) =
  match db !! j with Some e => Z.ltb 0 (error_count e) | None => false end.
Proof.
  apply eq_iff_eq_true. rewrite existsb_exists.
  split.
  - intros [k [Hk Hjk]]. apply Z.eqb_eq in Hjk. subst k.
    unfold get_error_episodes in Hk. apply in_keys_filter_map_to_list in Hk.
    destruct Hk as [e [He Hp]]. by rewrite He.
  - destruct (db !! j) as [e|] eqn:He; [|done]. intros Hp.
    exists j. split; [|apply Z.eqb_refl].
    unfold get_error_episodes. apply in_keys_filter_map_to_list. eauto.
Qed.

(** Single-episode retry with a non-zero id: the episode is rewound to
    [downloaded] whatever its status, and with [reset_errors] its error
    fields are cleared; nothing else changes. *)
Lemma retry_single_effect (db : store) i all reset_errors e :
  i <> 0%Z -> db !! i = Some e ->
  (retry db (Some i) all reset_errors).1 = alter (retry_effect reset_errors) i db.
Proof.
  intros Hi He. unfold retry, py_truthy_int.
  destruct (Z.eqb_spec i 0) as [|_]; [done|].
  unfold get_episode_by_id. rewrite He.
  destruct reset_errors; simpl; unfold update_episode_status, reset_episode_errors.
  - by rewrite alter_alter_same.
  - reflexivity.
Qed.

Lemma retry_single_roundtrip (db : store) i all e :
  i <> 0%Z -> db !! i = Some e ->
  exists e', (retry db (Some i) all true).1 !! i = Some e' /\
             status e' = "downloaded" /\ error_count e' = 0%Z /\ last_error e' = None.
Proof.
  intros Hi He. rewrite (retry_single_effect db i all true e Hi He), lookup_alter_eq, He.
  by eexists.
Qed.

(** [if episode_id:] reads [--episode-id 0] as "no id given". *)
Lemma retry_id_zero_falls_through (db : store) all reset_errors :
  retry db (Some 0%Z) all reset_errors = retry db None all reset_errors.
Proof. reflexivity. Qed.

Definition errored_transcribed_ep : episode :=
  mkEpisode "Example Show" "Episode zero" "transcribed" 2 (Some "LLM timeout") (Some 1700000000%Z)
    None None.

Definition clean_processed_ep : episode :=
  mkEpisode "Example Show" "Episode zero" "processed" 0 None None None (Some "summary").

(** C2 (code_bug): [retry --episode-id 0 --reset-errors] on a store whose
    episode 0 has two errors leaves that episode as it was: status
    [transcribed], [error_count] 2, [last_error] set. *)
Lemma retry_reset_roundtrip_id_zero :
  let db : store := {[0%Z := errored_transcribed_ep]} in
  retry db (Some 0%Z) false true = (db, [MsgSpecifyIdOrAll]) /\
  (retry db (Some 0%Z) false true).1 !! 0%Z = Some errored_transcribed_ep /\
  status errored_transcribed_ep = "transcribed" /\ error_count errored_transcribed_ep = 2%Z /\
  last_error errored_transcribed_ep = Some "LLM timeout".
Proof. simpl. repeat split. Qed.

(** C9 (code_bug): [retry --episode-id 0] on a store whose episode 0 is a
    cleanly processed episode does not rewind it: its status stays
    [processed]. *)
Lemma retry_unconditional_id_zero :
  let db : store := {[0%Z := clean_processed_ep]} in
  (retry db (Some 0%Z) false false).1 !! 0%Z = Some clean_processed_ep /\
  status clean_processed_ep = "processed" /\
  (retry db (Some 0%Z) false false).2 = [MsgSpecifyIdOrAll].
Proof. simpl. repeat split. Qed.

(** C3: [retry --all] (no id given) rewinds to [downloaded] exactly the
    episodes with [error_count > 0], clearing their error fields when
    [--reset-errors] is given, and leaves every other episode as it was;
    with no errored episode nothing changes. *)
Theorem retry_all_targets_errored (db : store) episode_id reset_errors :
  py_truthy_int episode_id = None ->
  (forall i, (retry db episode_id true reset_errors).1 !! i =
     match db !! i with
     | Some e =>
         if Z.ltb 0 (error_count e)
         then Some (set_status "downloaded" (if reset_errors then clear_errors e else e))
         else Some e
     | None => None
     end) /\
  (get_error_episodes db = [] -> retry db episode_id true reset_errors = (db, [MsgNoFailedEpisodes])).
Proof.
  intros Hid. unfold retry. rewrite Hid. split.
  - intros i. destruct (get_error_episodes db) as [|x xs] eqn:E.
    + simpl. pose proof (existsb_errored_keys db i) as Hk. rewrite E in Hk. simpl in Hk.
      destruct (db !! i) as [e|]; [|done]. by rewrite <- Hk.
    + rewrite <- E.
      destruct (retry_all_loop db (get_error_episodes db) reset_errors) as [db' ms] eqn:Hl.
      simpl. pose proof (retry_all_loop_lookup db (get_error_episodes db) reset_errors i) as H.
      rewrite Hl in H. simpl in H. rewrite H, existsb_errored_keys.
      destruct (db !! i) as [e|]; [|done]. by destruct (Z.ltb 0 (error_count e)).
  - intros E. by rewrite E.
Qed.

Lemma retry_all_targets_errored_witness :
  py_truthy_int None = None /\
  (retry {[1%Z := errored_transcribed_ep]} None true true).1 !! 1%Z =
    Some (set_status "downloaded" (clear_errors errored_transcribed_ep)).
Proof.
  split; [reflexivity|].
  pose proof (retry_all_targets_errored {[1%Z := errored_transcribed_ep]} None true
                eq_refl) as [H _].
  rewrite H. reflexivity.
Defined.

(** ** [mark_processed] *)

Lemma set_processed_note_idem reason e :
  set_processed_note reason (set_processed_note reason e) = set_processed_note reason e.
Proof. reflexivity. Qed.

Lemma mark_loop_lookup (db : store) eps reason j :
  (mark_loop db eps reason).1 !! j =
  if existsb (Z.eqb j) (map fst eps) then set_processed_note reason <$> db !! j else db !! j.
Proof.
  revert db. induction eps as [|[i e] rest IH]; intros db; simpl; [done|].
  destruct (mark_loop _ rest reason) as [db3 ms] eqn:Hl.
  specialize (IH (mark_episode_as_processed db i reason)).
  rewrite Hl in IH. simpl in IH |- *. rewrite IH. unfold mark_episode_as_processed.
  destruct (Z.eqb_spec j i) as [->|Hne]; simpl.
  - rewrite lookup_alter_eq. destruct (existsb _ _); [|done].
    by destruct (db !! i).
  - by rewrite lookup_alter_ne by congruence.
Qed.

(** Every episode after [mark_processed] is either untouched or the
    force-marked version of itself. *)
Lemma mark_processed_lookup (db : store) episode_id podcast reason j :
  (mark_processed db episode_id podcast reason).1 !! j = db !! j \/
  (mark_processed db episode_id podcast reason).1 !! j = set_processed_note reason <$> db !! j.
Proof.
  unfold mark_processed.
  destruct (py_truthy_int episode_id) as [i|].
  - unfold get_episode_by_id. destruct (db !! i) eqn:Hi; simpl; [|by left].
    unfold mark_episode_as_processed.
    destruct (Z.eqb_spec j i) as [->|Hne].
    + right. apply lookup_alter_eq.
    + left. by apply lookup_alter_ne.
  - destruct (py_truthy_str podcast) as [p|]; [|by left].
    destruct (List.filter _ _) as [|x xs] eqn:E; [by left|].
    rewrite <- E.
    destruct (mark_loop _ _ reason) as [db' ms] eqn:Hl. simpl.
    pose proof (mark_loop_lookup db (List.filter (podcast_matches p) (get_error_episodes db))
                  reason j) as H.
    rewrite Hl in H. simpl in H. rewrite H. destruct (existsb _ _); [by right|by left].
Qed.

(** C4: force-mark-processed, by id or by podcast name, leaves the error
    triple ([error_count], [last_error], [error_timestamp]), the titles
    and the artifact of every episode as they were; the only changes
    are [status], which becomes ['processed'], and the informational
    note, which receives the reason. In particular the reason is never
    written to [last_error]. *)
Theorem mark_processed_frame (db : store) episode_id podcast reason i e e' :
  db !! i = Some e ->
  (mark_processed db episode_id podcast reason).1 !! i = Some e' ->
  error_count e' = error_count e /\ last_error e' = last_error e /\
  error_timestamp e' = error_timestamp e /\
  podcast_title e' = podcast_title e /\ title e' = title e /\ summary e' = summary e /\
  ((status e' = status e /\ note e' = note e) \/ (status e' = "processed" /\ note e' = reason)).
Proof.
  intros He He'.
  destruct (mark_processed_lookup db episode_id podcast reason i) as [H|H];
    rewrite H, He in He'; simpl in He'; injection He' as <-; simpl.
  - repeat split; auto.
  - repeat split; auto.
Qed.

Lemma mark_processed_frame_witness :
  error_count (set_processed_note (Some "unusable audio") errored_transcribed_ep)
    = error_count errored_transcribed_ep.
Proof.
  refine (proj1 (mark_processed_frame {[7%Z := errored_transcribed_ep]} (Some 7%Z) None
                   (Some "unusable audio") 7%Z errored_transcribed_ep
                   (set_processed_note (Some "unusable audio") errored_transcribed_ep)
                   _ _)); reflexivity.
Defined.

Lemma podcast_targets_errored (db : store) p j :
  existsb (Z.eqb j) (map fst (List.filter (podcast_matches p) (get_error_episodes db))) = true ->
  exists e, db !! j = Some e /\ (0 < error_count e)%Z.
Proof.
  rewrite existsb_exists. intros [k [Hk Hjk]]. apply Z.eqb_eq in Hjk. subst k.
  apply in_map_iff in Hk as [[k e] [Hk Hin]]. simpl in Hk. subst k.
  apply filter_In in Hin as [Hin _]. unfold get_error_episodes in Hin.
  apply in_filter_map_to_list in Hin as [He Hp]. simpl in Hp.
  exists e. split; [done|]. by apply Z.ltb_lt.
Qed.

(** C5: [mark_processed --podcast P] (no id given) selects among the
    errored episodes only: when no errored episode's podcast title
    matches [P], it changes nothing and reports that no error episode
    was found; and an episode with [error_count = 0] is never touched. *)
Theorem podcast_recovery_errored_only (db : store) episode_id p reason :
  py_truthy_int episode_id = None -> p <> EmptyString ->
  (Forall (fun ie => podcast_matches p ie = false) (get_error_episodes db) ->
   mark_processed db episode_id (Some p) reason = (db, [MsgNoErrorEpisodesFor p])) /\
  (forall i e, db !! i = Some e -> error_count e = 0%Z ->
   (mark_processed db episode_id (Some p) reason).1 !! i = Some e).
Proof.
  intros Hid Hp.
  assert (Hs : py_truthy_str (Some p) = Some p).
  { destruct p; [done|reflexivity]. }
  unfold mark_processed. rewrite Hid, Hs. split.
  - intros Hall.
    assert (Hnil : List.filter (podcast_matches p) (get_error_episodes db) = []).
    { induction Hall as [|x l Hx _ IH]; [done|]. simpl. by rewrite Hx. }
    by rewrite Hnil.
  - intros i e He Hec.
    destruct (List.filter _ _) as [|x xs] eqn:E; [done|].
    rewrite <- E.
    destruct (mark_loop _ _ reason) as [db' ms] eqn:Hl. simpl.
    pose proof (mark_loop_lookup db (List.filter (podcast_matches p) (get_error_episodes db))
                  reason i) as H.
    rewrite Hl in H. simpl in H. rewrite H.
    destruct (existsb _ _) eqn:Hex; [|done].
    apply podcast_targets_errored in Hex as [e0 [He0 Hlt]].
    rewrite He in He0. injection He0 as <-. lia.
Qed.

Definition other_show_ep : episode :=
  mkEpisode "Other Podcast" "Episode 3" "transcribed" 1 (Some "timeout") (Some 1700000000%Z)
    None None.

Definition healthy_example_ep : episode :=
  mkEpisode "Example Show" "Episode 4" "transcribed" 0 None None None None.

Lemma podcast_recovery_errored_only_witness :
  let db : store := {[3%Z := other_show_ep; 4%Z := healthy_example_ep]} in
  mark_processed db None (Some "Example Show") (Some "cleanup")
    = (db, [MsgNoErrorEpisodesFor "Example Show"]).
Proof.
  simpl.
  apply (podcast_recovery_errored_only _ None "Example Show" (Some "cleanup")); [reflexivity| |].
  - discriminate.
  - vm_compute. repeat constructor.
Defined.

(** ** [digest] *)

Section DigestProps.

Variable summarize : Z -> episode -> stage_result.
Variable now : Z.

Lemma generate_summary_frame (db : store) i skip b db1 j :
  generate_summary summarize now db i skip = (b, db1) -> j <> i -> db1 !! j = db !! j.
Proof.
  unfold generate_summary. intros H Hne.
  destruct (db !! i) as [e|]; [|by injection H as _ <-].
  destruct (_ || _)%bool; [by injection H as _ <-|].
  destruct (summarize i e); injection H as _ <-;
    unfold record_success, record_failure; by rewrite lookup_alter_ne by congruence.
Qed.

Lemma generate_summary_success (db : store) i skip db1 :
  generate_summary summarize now db i skip = (true, db1) ->
  exists e, db1 !! i = Some e /\ status e = "processed".
Proof.
  unfold generate_summary. intros H.
  destruct (db !! i) as [e|] eqn:He; [|discriminate].
  destruct (_ || _)%bool; [discriminate|].
  destruct (summarize i e); [|discriminate]. injection H as <-.
  unfold record_success. rewrite lookup_alter_eq, He. by eexists.
Qed.

Definition count_results (b : bool) (calls : list (Z * bool)) : nat :=
  length (List.filter (fun c => Bool.eqb (snd c) b) calls).

Definition eligible (max_retries : Z) (ie : Z * episode) : bool :=
  Z.ltb (error_count ie.2) max_retries.

Lemma digest_loop_props (eps : list (Z * episode)) (db : store) skip R p f :
  NoDup (map fst eps) ->
  let o := digest_loop summarize now db eps skip R p f in
  map fst (b_calls o) = map fst (List.filter (eligible R) eps) /\
  (forall j, ~ In j (map fst (b_calls o)) -> b_store o !! j = db !! j) /\
  (forall j, In (j, true) (b_calls o) -> exists e, b_store o !! j = Some e /\ status e = "processed") /\
  b_processed o = (p + count_results true (b_calls o))%nat /\
  b_failed o = (f + count_results false (b_calls o))%nat.
Proof.
  revert db p f. induction eps as [|[i e] rest IH]; intros db p f Hnd; simpl.
  { repeat split; try solve [auto | lia | intros ? []]. }
  inversion Hnd as [|? ? Hni Hnd']; subst.
  unfold eligible at 1. simpl.
  destruct (Z.leb_spec R (error_count e)) as [Hle|Hlt].
  - assert (Hf : Z.ltb (error_count e) R = false) by (apply Z.ltb_ge; lia).
    rewrite Hf. simpl. apply IH; done.
  - assert (Ht : Z.ltb (error_count e) R = true) by (apply Z.ltb_lt; lia).
    rewrite Ht.
    destruct (generate_summary summarize now db i skip) as [result db1] eqn:Hg. simpl.
    destruct (IH db1 (if result then S p else p) (if result then f else S f) Hnd')
      as (Hcalls & Hframe & Hsucc & Hp & Hf).
    set (o := digest_loop summarize now db1 rest skip R _ _) in *.
    assert (Hnot : ~ In i (map fst (b_calls o))).
    { rewrite Hcalls. intros Hin. apply Hni.
      apply in_map_iff in Hin as [[k x] [Hk Hin]]. simpl in Hk. subst k.
      apply filter_In in Hin as [Hin _]. apply list_elem_of_In, in_map_iff. by exists (i, x). }
    repeat split.
    + simpl. by rewrite Hcalls.
    + intros j Hj. simpl in Hj. rewrite Hframe by tauto.
      apply (generate_summary_frame db i skip result db1 j Hg). intros ->. tauto.
    + intros j [Hj|Hj].
      * injection Hj as <- ->. rewrite Hframe by exact Hnot.
        by apply (generate_summary_success db i skip db1).
      * by apply Hsucc.
    + rewrite Hp. unfold count_results. simpl. destruct result; simpl; lia.
    + rewrite Hf. unfold count_results. simpl. destruct result; simpl; lia.
Qed.

Lemma nodup_keys_filter (l : list (Z * episode)) (q : Z * episode -> bool) :
  NoDup (map fst l) -> NoDup (map fst (List.filter q l)).
Proof.
  induction l as [|[i e] rest IH]; intros Hnd; simpl; [constructor|].
  inversion Hnd as [|? ? Hni Hnd']; subst.
  destruct (q (i, e)); simpl; [|auto].
  constructor; [|auto]. intros Hin. apply list_elem_of_In in Hin. apply Hni.
  apply in_map_iff in Hin as [[k x] [Hk Hin]]. simpl in Hk. subst k.
  apply filter_In in Hin as [Hin _]. apply list_elem_of_In, in_map_iff. by exists (i, x).
Qed.

Lemma fmap_fst_map (l : list (Z * episode)) : l.*1 = map fst l.
Proof. induction l as [|x l IH]; [done|]. simpl. by rewrite <- IH. Qed.

Lemma nodup_keys_by_status (db : store) s :
  NoDup (map fst (get_episodes_by_status db s)).
Proof.
  apply nodup_keys_filter.
  pose proof (NoDup_fst_map_to_list db) as H.
  rewrite <- fmap_fst_map. exact H.
Qed.

End DigestProps.

Lemma in_eligible_keys (db : store) R i :
  In i (map fst (List.filter (eligible R) (get_episodes_by_status db "transcribed"))) ->
  exists e, db !! i = Some e /\ status e = "transcribed" /\ (error_count e < R)%Z.
Proof.
  intros Hin. apply in_map_iff in Hin as [[k x] [Hk Hin]]. simpl in Hk. subst k.
  apply filter_In in Hin as [Hin Hel]. unfold get_episodes_by_status in Hin.
  apply in_filter_map_to_list in Hin as [Hx Hs]. simpl in Hs.
  exists x. unfold eligible in Hel. simpl in Hel.
  split; [done|]. split; [by apply String.eqb_eq|]. by apply Z.ltb_lt.
Qed.

(** C1 (as amended, [max_retries >= 1]): in a [digest] batch run (no
    episode id), [generate_summary] is called only on episodes whose
    status is [transcribed] and whose [error_count] is below
    [max_retries]; every episode with [error_count >= max_retries] is
    not called, is left as it was, and is listed by [errors] after the
    run. *)
Theorem digest_batch_retry_ceiling summarize now (db : store) episode_id skip R :
  py_truthy_int episode_id = None -> (1 <= R)%Z ->
  let '(db', _, calls) := digest summarize now db episode_id skip R in
  (forall i b, In (i, b) calls ->
     exists e, db !! i = Some e /\ status e = "transcribed" /\ (error_count e < R)%Z) /\
  (forall i e, db !! i = Some e -> (R <= error_count e)%Z ->
     ~ In i (map fst calls) /\ db' !! i = Some e /\ In i (errors_listed_ids db')).
Proof.
  intros Hid HR. unfold digest. rewrite Hid.
  destruct (get_episodes_by_status db "transcribed") as [|x xs] eqn:E.
  - split; [intros ? ? []|]. intros i e He Hle. repeat split; [intros []|done|].
    apply errors_listed_ids_spec. exists e. split; [done|lia].
  - rewrite <- E.
    destruct (digest_loop_props summarize now (get_episodes_by_status db "transcribed") db
                skip R 0 0 (nodup_keys_by_status db "transcribed"))
      as (Hcalls & Hframe & _).
    set (o := digest_loop _ _ _ _ _ _ _ _) in *.
    split.
    + intros i b Hin. apply in_eligible_keys with (R := R).
      rewrite <- Hcalls. apply in_map_iff. by exists (i, b).
    + intros i e He Hle.
      assert (Hnot : ~ In i (map fst (b_calls o))).
      { rewrite Hcalls. intros Hin. apply in_eligible_keys in Hin as (x0 & Hx0 & _ & Hlt).
        rewrite He in Hx0. injection Hx0 as <-. lia. }
      assert (Hst : b_store o !! i = Some e) by (rewrite Hframe by exact Hnot; exact He).
      repeat split; [exact Hnot|exact Hst|].
      apply errors_listed_ids_spec. exists e. split; [done|lia].
Qed.

Definition always_succeeds : Z -> episode -> stage_result := fun _ _ => StageSuccess "summary".

(** C1 as stated fails for [max_retries = 0]: a clean transcribed
    episode ([error_count = 0 >= 0]) is skipped by the batch loop, and it
    is not in the [errors] listing. *)
Lemma digest_retry_ceiling_zero_counterexample :
  let db : store := {[1%Z := healthy_example_ep]} in
  let '(db', _, calls) := digest always_succeeds 0%Z db None false 0%Z in
  status healthy_example_ep = "transcribed" /\ (0 <= error_count healthy_example_ep)%Z /\
  ~ In 1%Z (map fst calls) /\ ~ In 1%Z (errors_listed_ids db').
Proof.
  vm_compute. split; [reflexivity|]. split; [discriminate|]. split; intros [].
Qed.

Lemma digest_batch_retry_ceiling_witness :
  let db : store := {[1%Z := healthy_example_ep; 3%Z := other_show_ep]} in
  let '(db', _, calls) := digest always_succeeds 0%Z db None false 1%Z in
  In 3%Z (errors_listed_ids db').
Proof.
  pose proof (digest_batch_retry_ceiling always_succeeds 0%Z
                {[1%Z := healthy_example_ep; 3%Z := other_show_ep]} None false 1%Z
                eq_refl ltac:(lia)) as H.
  simpl in H |- *.
  destruct (digest always_succeeds 0%Z _ None false 1%Z) as [[db' ms] calls].
  destruct H as [_ H].
  refine (proj2 (proj2 (H 3%Z other_show_ep _ _))); reflexivity || (simpl; lia).
Defined.

(** C6: a [digest] batch run (no episode id) calls [generate_summary] on
    every eligible episode, a failure being a result and not an abort;
    it reports the number of successes and, when there are any, the
    number of failures; and every episode that succeeded is still
    [processed] at the end of the run, whatever happened to the episodes
    after it. *)
Theorem digest_batch_partial_progress summarize now (db : store) episode_id skip R :
  py_truthy_int episode_id = None ->
  let '(db', ms, calls) := digest summarize now db episode_id skip R in
  map fst calls = map fst (List.filter (eligible R) (get_episodes_by_status db "transcribed")) /\
  (forall i, In (i, true) calls -> exists e, db' !! i = Some e /\ status e = "processed") /\
  (get_episodes_by_status db "transcribed" <> [] ->
   exists pre, ms = (pre ++ [MsgProcessedN (count_results true calls)]
                     ++ (if Nat.ltb 0 (count_results false calls)
                         then [MsgFailedN (count_results false calls)] else []))%list).
Proof.
  intros Hid. unfold digest. rewrite Hid.
  destruct (get_episodes_by_status db "transcribed") as [|x xs] eqn:E.
  - repeat split; [intros ? []|done].
  - rewrite <- E.
    destruct (digest_loop_props summarize now (get_episodes_by_status db "transcribed") db
                skip R 0 0 (nodup_keys_by_status db "transcribed"))
      as (Hcalls & _ & Hsucc & Hp & Hf).
    set (o := digest_loop _ _ _ _ _ _ _ _) in *.
    repeat split; [exact Hcalls|exact Hsucc|].
    intros _. exists (b_msgs o). rewrite Hp, Hf. reflexivity.
Qed.

Definition first_succeeds : Z -> episode -> stage_result :=
  fun i _ => if Z.eqb i 1 then StageSuccess "summary" else StageFailure "LLM timeout".

Lemma digest_batch_partial_progress_witness :
  let db : store := {[1%Z := healthy_example_ep; 3%Z := other_show_ep]} in
  let '(db', ms, calls) := digest first_succeeds 5%Z db None false 3%Z in
  exists e, db' !! 1%Z = Some e /\ status e = "processed".
Proof.
  pose proof (digest_batch_partial_progress first_succeeds 5%Z
                {[1%Z := healthy_example_ep; 3%Z := other_show_ep]} None false 3%Z
                eq_refl) as H.
  cbv zeta.
  destruct (digest first_succeeds 5%Z _ None false 3%Z) as [[db' ms] calls] eqn:Hd.
  destruct H as (_ & H & _). apply H.
  vm_compute in Hd. injection Hd as _ _ <-. simpl. auto.
Defined.

(** ** [export] and [write] date validation *)

(** C7 as stated fails: [strptime] with ['%Y-%m-%d'] accepts
    ["2024-1-5"], which is not in YYYY-MM-DD form, and an empty
    [--date] is falsy and falls back to today; in both cases [export]
    goes on to query the store. *)
Lemma export_nonstandard_date_counterexample :
  is_yyyy_mm_dd "2024-1-5" = false /\
  In (ActQuerySummaries (2024, 1, 5)%Z)
     (export (Some "2024-1-5") [] None ["markdown"] (2026, 10, 17)%Z (fun _ => [])) /\
  is_yyyy_mm_dd EmptyString = false /\
  In (ActQuerySummaries (2026, 10, 17)%Z)
     (export (Some EmptyString) [] None ["markdown"] (2026, 10, 17)%Z (fun _ => [])).
Proof. vm_compute. repeat split; auto. Qed.

(** C7 (as amended): when [--date] is a non-empty string that [strptime]
    rejects, [export] and [write] stop after loading the configuration
    and printing the date error: no summaries query, no file written,
    nothing changed. *)
Theorem bad_date_rejected_before_store date_s format output config_formats today
    summaries_by_date topic :
  date_s <> EmptyString -> strptime_ymd date_s = None ->
  export (Some date_s) format output config_formats today summaries_by_date
    = [ActLoadConfig; ActPrintInvalidDate] /\
  write topic (Some date_s) today summaries_by_date = [ActLoadConfig; ActPrintInvalidDate].
Proof.
  intros Hne Hbad.
  assert (Hp : parse_date_option (Some date_s) today = None).
  { unfold parse_date_option, py_truthy_str. destruct date_s; [done|exact Hbad]. }
  unfold export, write. by rewrite Hp.
Qed.

Lemma bad_date_rejected_before_store_witness :
  export (Some "17/10/2026") [] None ["markdown"] (2026, 10, 17)%Z (fun _ => ["summary"])
    = [ActLoadConfig; ActPrintInvalidDate].
Proof.
  refine (proj1 (bad_date_rejected_before_store "17/10/2026" [] None ["markdown"]
                   (2026, 10, 17)%Z (fun _ => ["summary"]) "AI" _ _)).
  - discriminate.
  - vm_compute. reflexivity.
Defined.

(** ** [migrate_database] *)

Lemma normalize_row_valid r s :
  row_status (normalize_row r) = Some s -> In s valid_statuses.
Proof.
  unfold normalize_row, sql_not_in. destruct (row_status r) as [s0|] eqn:Hr.
  - destruct (negb _) eqn:E; simpl.
    + intros H. injection H as <-. simpl. tauto.
    + rewrite Hr. intros H. injection H as <-.
      apply negb_false_iff, existsb_exists in E.
      destruct E as [x [Hx Heq]]. apply String.eqb_eq in Heq. by subst.
  - rewrite Hr. discriminate.
Qed.

(** After a successful migration every row with a non-NULL status holds
    one of the four values. *)
Lemma migrate_normalizes_non_null db db' t r s :
  migrate_database db = (db', true) -> episodes_table db' = Some t ->
  In r (tbl_rows t) -> row_status r = Some s -> In s valid_statuses.
Proof.
  unfold migrate_database. cbv zeta.
  destruct (add_if_missing _ _ _ _) as [db1|]; [|discriminate].
  intros H. injection H as <-. unfold update_stuck_statuses.
  destruct (episodes_table db1) as [t1|] eqn:Ht1; [|intros; congruence].
  simpl. intros Ht. injection Ht as <-. simpl.
  intros Hin Hs. apply in_map_iff in Hin as [r0 [<- _]].
  exact (normalize_row_valid r0 s Hs).
Qed.

Definition null_status_db : database :=
  mkDatabase (Some (mkTable [("id", "INTEGER"); ("status", "TEXT")]
                            [mkRow 1 None; mkRow 2 (Some "stuck")])).

(** C8 (code_bug): a row whose [status] is NULL is not caught by
    [WHERE status NOT IN (...)] (unknown, not true, in SQL), so the
    migration reports success and the row still has no valid status. *)
Lemma migrate_keeps_null_status :
  migrate_database null_status_db =
    (mkDatabase (Some (mkTable [("id", "INTEGER"); ("status", "TEXT");
                                ("error_count", "INTEGER"); ("last_error", "TEXT");
                                ("error_timestamp", "TIMESTAMP")]
                               [mkRow 1 None; mkRow 2 (Some "downloaded")])), true) /\
  ~ statuses_valid (migrate_database null_status_db).1.
Proof.
  split; [reflexivity|].
  vm_compute. intros H. inversion H as [|? ? [s [Hs _]] _]. discriminate.
Qed.

Definition has_column (cols : list (string * string)) (c : string) : bool :=
  existsb (String.eqb c) (map fst cols).

Lemma existsb_existing t c :
  In c tracked_columns ->
  existsb (String.eqb c) (existing_columns (mkDatabase (Some t))) = has_column (tbl_columns t) c.
Proof.
  intros Hc. unfold existing_columns, has_column. simpl.
  apply eq_iff_eq_true. rewrite !existsb_exists. split.
  - intros [x [Hx Heq]]. apply filter_In in Hx as [Hx _]. eauto.
  - intros [x [Hx Heq]]. exists x. split; [|done].
    apply String.eqb_eq in Heq. subst x. apply filter_In. split; [done|].
    change (existsb (String.eqb c) tracked_columns = true). apply existsb_exists. exists c. split; [done|apply String.eqb_refl].
Qed.

Lemma add_if_missing_table existing t c ty :
  add_if_missing existing c ty (Some (mkDatabase (Some t))) =
  Some (mkDatabase (Some (mkTable (tbl_columns t ++
          (if existsb (String.eqb c) existing then [] else [(c, ty)]))%list (tbl_rows t)))).
Proof.
  unfold add_if_missing. destruct (existsb _ _); simpl; [|done].
  rewrite app_nil_r. by destruct t.
Qed.

Lemma has_column_app l m c : has_column (l ++ m)%list c = (has_column l c || has_column m c)%bool.
Proof. unfold has_column. by rewrite map_app, existsb_app. Qed.

Lemma normalize_row_idem r : normalize_row (normalize_row r) = normalize_row r.
Proof.
  unfold normalize_row.
  destruct (sql_not_in (row_status r) valid_statuses) as [[]|] eqn:E; simpl; rewrite ?E;
    reflexivity.
Qed.

Lemma migrate_complete cols rows :
  has_column cols "error_count" = true -> has_column cols "last_error" = true ->
  has_column cols "error_timestamp" = true ->
  migrate_database (mkDatabase (Some (mkTable cols rows)))
    = (mkDatabase (Some (mkTable cols (map normalize_row rows))), true).
Proof.
  intros H1 H2 H3. unfold migrate_database. cbv zeta.
  rewrite !add_if_missing_table. cbn [tbl_columns tbl_rows].
  rewrite (existsb_existing (mkTable cols rows) "error_count") by (simpl; tauto).
  rewrite (existsb_existing (mkTable cols rows) "last_error") by (simpl; tauto).
  rewrite (existsb_existing (mkTable cols rows) "error_timestamp") by (simpl; tauto).
  cbn [tbl_columns]. rewrite H1, H2, H3. rewrite !app_nil_r. reflexivity.
Qed.

(** C10: running [migrate_database] on a database it has already
    migrated changes nothing: no column is added, and the database
    (schema and rows) is the one left by the first run. *)
Theorem migrate_idempotent (db : database) :
  (migrate_database (migrate_database db).1).1 = (migrate_database db).1.
Proof.
  destruct db as [[t|]]; [|reflexivity].
  set (ex := existing_columns (mkDatabase (Some t))).
  set (cols := (((tbl_columns t
                 ++ (if existsb (String.eqb "error_count") ex then [] else [("error_count", "INTEGER")]))
                 ++ (if existsb (String.eqb "last_error") ex then [] else [("last_error", "TEXT")]))
                 ++ (if existsb (String.eqb "error_timestamp") ex then [] else [("error_timestamp", "TIMESTAMP")]))%list).
  assert (Hcols : forall c, In c tracked_columns -> has_column cols c = true).
  { intros c Hc. unfold cols. rewrite !has_column_app. unfold ex.
    rewrite !existsb_existing by (simpl; tauto).
    simpl in Hc. destruct Hc as [<-|[<-|[<-|[]]]];
      destruct (has_column (tbl_columns t) _); simpl; rewrite ?orb_true_r; reflexivity. }
  assert (Hfirst : migrate_database (mkDatabase (Some t))
                   = (mkDatabase (Some (mkTable cols (map normalize_row (tbl_rows t)))), true)).
  { unfold migrate_database. cbv zeta. rewrite !add_if_missing_table. reflexivity. }
  rewrite Hfirst. cbn [fst].
  rewrite migrate_complete by (apply Hcols; simpl; tauto).
  rewrite map_map. cbn [fst]. do 3 f_equal. apply map_ext. apply normalize_row_idem.
Qed.

(* ================================================================= *)
(** * Further commands of cli.py *)

(** ** [status] (cli.py lines 248-279) *)

(** The status values counted by [status], in display order. *)
Definition status_statuses : list string := ["downloaded"; "transcribed"; "processed"; "failed"].

(** [status]: the count per status, and the warning count printed when
    [error_count > 0] ([None] when no warning is printed). *)
Definition status_cmd (db : store) : list (string * nat) * option nat :=
  let counts := map (fun s => (s, length (get_episodes_by_status db s))) status_statuses in
  let error_count := length (get_error_episodes db) in
  (counts, if Nat.ltb 0 error_count then Some error_count else None).

(** ** The [--show-all] columns of [errors] (cli.py lines 401-406) *)

(** [error_msg = ep['last_error'] or "N/A"; if len(error_msg) > 50:
    error_msg = error_msg[:47] + "..."] (lengths in characters; ASCII). *)
Definition error_column (last_err : option string) : string :=
  let error_msg := match last_err with
                   | Some EmptyString | None => "N/A"
                   | Some s => s
                   end in
  if Nat.ltb 50 (String.length error_msg)
  then substring 0 47 error_msg ++ "..."
  else error_msg.

(** A row of [errors --show-all]: the base row, the error column and
    the raw timestamp (printed as [str(ts or "N/A")[:19]]). *)
Definition error_row_all (ie : Z * episode) : msg * string * option Z :=
  (error_row ie, error_column (last_error ie.2), error_timestamp ie.2).

Definition errors_show_all (db : store) : list (msg * string * option Z) :=
  map error_row_all (get_error_episodes db).

(** ** Extra properties *)

Lemma length_substring_0 n s : String.length (substring 0 n s) = Nat.min n (String.length s).
Proof.
  revert n. induction s as [|c s IH]; intros [|n]; simpl; auto.
Qed.

Lemma length_string_app s1 s2 : String.length (s1 ++ s2) = (String.length s1 + String.length s2)%nat.
Proof. induction s1 as [|c s1 IH]; simpl; auto. Qed.

Lemma error_column_short s :
  s <> EmptyString -> (String.length s <= 50)%nat -> error_column (Some s) = s.
Proof.
  intros Hne Hle. unfold error_column.
  destruct s as [|c s']; [done|].
  destruct (Nat.ltb_spec 50 (String.length (String c s'))); [lia|done].
Qed.

(** X2: the error column of [errors --show-all] is never longer than 50
    characters; a non-empty message of at most 50 characters is shown
    as is, a longer one as its first 47 characters followed by "...",
    and a missing or empty message as "N/A". *)
Theorem error_column_bounded (last_err : option string) :
  (String.length (error_column last_err) <= 50)%nat /\
  (forall s, last_err = Some s -> s <> EmptyString -> (String.length s <= 50)%nat ->
     error_column last_err = s) /\
  (forall s, last_err = Some s -> (50 < String.length s)%nat ->
     error_column last_err = substring 0 47 s ++ "...") /\
  (last_err = None \/ last_err = Some EmptyString -> error_column last_err = "N/A").
Proof.
  split; [|split; [|split]].
  - unfold error_column.
    destruct last_err as [[|c s]|]; [simpl; lia| |simpl; lia].
    destruct (Nat.ltb_spec 50 (String.length (String c s))) as [Hlt|Hge]; [|lia].
    rewrite length_string_app, length_substring_0.
    change (String.length "...") with 3%nat. lia.
  - intros s -> Hne Hle. by apply error_column_short.
  - intros s -> Hlt. unfold error_column.
    destruct s as [|c s']; simpl in Hlt; [lia|].
    destruct (Nat.ltb_spec 50 (String.length (String c s'))); [done|simpl in *; lia].
  - intros [-> | ->]; reflexivity.
Qed.

Lemma error_column_bounded_witness :
  error_column (Some "connection reset by peer while uploading the audio file to the server")
  = substring 0 47 "connection reset by peer while uploading the audio file to the server" ++ "...".
Proof.
  apply (proj1 (proj2 (proj2 (error_column_bounded
    (Some "connection reset by peer while uploading the audio file to the server")))));
    [reflexivity|simpl; lia].
Defined.

Lemma filter_status_sum (l : list (Z * episode)) :
  Forall (fun ie => In (status ie.2) status_statuses) l ->
  fold_right Nat.add 0%nat
    (map (fun s => length (List.filter (fun ie => String.eqb (status ie.2) s) l)) status_statuses)
  = length l.
Proof.
  induction l as [|[i e] l IH]; intros Hall; [reflexivity|].
  inversion Hall as [|? ? Hs Hall']; subst. simpl in Hs. specialize (IH Hall').
  simpl in IH |- *.
  destruct Hs as [Hs|[Hs|[Hs|[Hs|[]]]]]; rewrite <- Hs; simpl; lia.
Qed.

(** X1: [status] accounts for every episode: when every status is one of
    the four values, the four counts add up to the number of episodes,
    and the error warning is printed exactly when some episode has
    [error_count > 0], with the number of such episodes. *)
Theorem status_counts_total (db : store) :
  map_Forall (fun _ e => In (status e) status_statuses) db ->
  fold_right Nat.add 0%nat (map snd (status_cmd db).1) = size db /\
  (status_cmd db).2 = (if Nat.ltb 0 (length (get_error_episodes db))
                       then Some (length (get_error_episodes db)) else None) /\
  ((status_cmd db).2 = None <-> forall i e, db !! i = Some e -> (error_count e <= 0)%Z).
Proof.
  intros Hall. split; [|split].
  - unfold status_cmd. cbn [fst]. rewrite map_map. cbn [snd].
    rewrite <- length_map_to_list. unfold get_episodes_by_status.
    apply filter_status_sum. apply Forall_forall. intros [i e] Hin.
    apply elem_of_map_to_list in Hin.
    exact (Hall i e Hin).
  - reflexivity.
  - unfold status_cmd. simpl. split.
    + intros Hn i e He. destruct (Z.le_gt_cases (error_count e) 0) as [?|Hgt]; [done|].
      exfalso. assert (Hin : In (i, e) (get_error_episodes db)).
      { unfold get_error_episodes. apply in_filter_map_to_list. split; [done|]. by apply Z.ltb_lt. }
      destruct (get_error_episodes db) as [|x xs]; [done|]. simpl in Hn. discriminate.
    + intros H. destruct (get_error_episodes db) as [|[i e] xs] eqn:E; [done|].
      exfalso. assert (Hin : In (i, e) (get_error_episodes db)) by (rewrite E; left; done).
      unfold get_error_episodes in Hin. apply in_filter_map_to_list in Hin as [He Hp].
      apply Z.ltb_lt in Hp. specialize (H i e He). simpl in Hp. lia.
Qed.

Definition status_example_db : store :=
  {[1%Z := healthy_example_ep; 3%Z := other_show_ep; 0%Z := clean_processed_ep]}.

Lemma status_counts_total_witness :
  fold_right Nat.add 0%nat (map snd (status_cmd status_example_db).1) = size status_example_db.
Proof.
  refine (proj1 (status_counts_total status_example_db _)).
  apply map_Forall_lookup. intros i e He.
  unfold status_example_db in He.
  repeat (rewrite lookup_insert in He; case_decide; [injection He as <-; simpl; tauto|]).
  rewrite lookup_singleton in He. case_decide; [injection He as <-; simpl; tauto|done].
Defined.

(** ** [retry --all] and [mark_processed], composed with [errors] *)

Lemma get_error_episodes_nil (db : store) :
  get_error_episodes db = [] <-> forall i e, db !! i = Some e -> (error_count e <= 0)%Z.
Proof.
  split.
  - intros Hn i e He. destruct (Z.le_gt_cases (error_count e) 0) as [?|Hgt]; [done|].
    exfalso. assert (Hin : In (i, e) (get_error_episodes db)).
    { unfold get_error_episodes. apply in_filter_map_to_list. split; [done|]. by apply Z.ltb_lt. }
    by rewrite Hn in Hin.
  - intros H. destruct (get_error_episodes db) as [|[i e] xs] eqn:E; [done|].
    exfalso. assert (Hin : In (i, e) (get_error_episodes db)) by (rewrite E; left; done).
    unfold get_error_episodes in Hin. apply in_filter_map_to_list in Hin as [He Hp].
    apply Z.ltb_lt in Hp. specialize (H i e He). simpl in Hp. lia.
Qed.

(** The store after [retry --all], episode by episode. *)
Lemma retry_all_store_lookup (db : store) episode_id r i :
  py_truthy_int episode_id = None ->
  (retry db episode_id true r).1 !! i =
  match db !! i with
  | Some e => if Z.ltb 0 (error_count e) then Some (retry_effect r e) else Some e
  | None => None
  end.
Proof.
  intros Hid. unfold retry. rewrite Hid.
  destruct (get_error_episodes db) as [|x xs] eqn:E.
  - simpl. pose proof (existsb_errored_keys db i) as Hk. rewrite E in Hk. simpl in Hk.
    destruct (db !! i) as [e|]; [|done]. by rewrite <- Hk.
  - rewrite <- E.
    destruct (retry_all_loop db (get_error_episodes db) r) as [db' ms] eqn:Hl.
    simpl. pose proof (retry_all_loop_lookup db (get_error_episodes db) r i) as H.
    rewrite Hl in H. simpl in H. rewrite H, existsb_errored_keys.
    destruct (db !! i) as [e|]; [|done]. by destruct (Z.ltb 0 (error_count e)).
Qed.


(** X3: [retry --all --reset-errors] followed by [errors]: the error
    listing is empty ("No episodes with errors found"). *)
Theorem retry_all_reset_then_errors_empty (db : store) episode_id :
  py_truthy_int episode_id = None ->
  errors (retry db episode_id true true).1 = [MsgNoErrors].
Proof.
  intros Hid. unfold errors.
  assert (Hn : get_error_episodes (retry db episode_id true true).1 = []).
  { apply get_error_episodes_nil. intros i e He.
    rewrite (retry_all_store_lookup db episode_id true i Hid) in He.
    destruct (db !! i) as [e0|]; [|done].
    destruct (Z.ltb_spec 0 (error_count e0)); injection He as <-; simpl; lia. }
  by rewrite Hn.
Qed.

Lemma retry_all_reset_then_errors_empty_witness :
  errors (retry {[1%Z := errored_transcribed_ep; 2%Z := other_show_ep]} None true true).1
    = [MsgNoErrors].
Proof. apply retry_all_reset_then_errors_empty. reflexivity. Defined.

(** X4: [retry --all] without [--reset-errors] keeps the error listing:
    [errors] lists exactly the same episodes afterwards, each of them now
    in status ['downloaded'] with its error count unchanged. *)
Theorem retry_all_keeps_error_listing (db : store) episode_id :
  py_truthy_int episode_id = None ->
  (forall j, In j (errors_listed_ids (retry db episode_id true false).1) <->
             In j (errors_listed_ids db)) /\
  (forall j e e', db !! j = Some e -> (0 < error_count e)%Z ->
     (retry db episode_id true false).1 !! j = Some e' ->
     status e' = "downloaded" /\ error_count e' = error_count e /\
     last_error e' = last_error e).
Proof.
  intros Hid. split.
  - intros j. rewrite !errors_listed_ids_spec.
    rewrite (retry_all_store_lookup db episode_id false j Hid).
    destruct (db !! j) as [e|]; [|split; intros [? [? _]]; done].
    destruct (Z.ltb_spec 0 (error_count e)); split; intros [e' [He' Hlt]];
      injection He' as <-; eauto.
  - intros j e e' He Hlt He'.
    rewrite (retry_all_store_lookup db episode_id false j Hid), He in He'.
    apply Z.ltb_lt in Hlt. rewrite Hlt in He'. injection He' as <-. done.
Qed.

Lemma retry_all_keeps_error_listing_witness :
  In 2%Z (errors_listed_ids (retry {[1%Z := healthy_example_ep; 2%Z := other_show_ep]}
                               None true false).1).
Proof.
  apply (proj1 (retry_all_keeps_error_listing {[1%Z := healthy_example_ep; 2%Z := other_show_ep]}
                  None eq_refl) 2%Z).
  vm_compute. tauto.
Defined.

(** X5: [retry --all] is idempotent on the store: running it a second
    time, with the same [--reset-errors] flag, changes nothing more. *)
Theorem retry_all_idempotent (db : store) episode_id r :
  py_truthy_int episode_id = None ->
  (retry (retry db episode_id true r).1 episode_id true r).1 = (retry db episode_id true r).1.
Proof.
  intros Hid. apply map_eq. intros i.
  rewrite (retry_all_store_lookup (retry db episode_id true r).1 episode_id r i Hid).
  rewrite (retry_all_store_lookup db episode_id r i Hid).
  destruct (db !! i) as [e|]; [|done].
  destruct (Z.ltb 0 (error_count e)) eqn:E.
  - destruct (Z.ltb 0 (error_count (retry_effect r e))); by rewrite ?retry_effect_idem.
  - by rewrite E.
Qed.

Lemma retry_all_idempotent_witness :
  (retry (retry {[1%Z := errored_transcribed_ep]} None true false).1 None true false).1
    = (retry {[1%Z := errored_transcribed_ep]} None true false).1.
Proof. apply retry_all_idempotent. reflexivity. Defined.



(** X7: [retry] and [mark_processed] leave the store untouched when the
    given non-zero id does not exist (reporting "not found"), and when
    neither an id nor the batch selector is given (asking for one). *)
Theorem missing_target_no_change (db : store) i all r podcast reason :
  i <> 0%Z -> db !! i = None ->
  retry db (Some i) all r = (db, [MsgEpisodeNotFound i]) /\
  mark_processed db (Some i) podcast reason = (db, [MsgEpisodeNotFound i]) /\
  retry db None false r = (db, [MsgSpecifyIdOrAll]) /\
  mark_processed db None None reason = (db, [MsgSpecifyIdOrPodcast]) /\
  mark_processed db None (Some EmptyString) reason = (db, [MsgSpecifyIdOrPodcast]).
Proof.
  intros Hi Hn.
  assert (Ht : py_truthy_int (Some i) = Some i).
  { unfold py_truthy_int. by destruct (Z.eqb_spec i 0). }
  unfold retry, mark_processed, get_episode_by_id. rewrite Ht, Hn. repeat split.
Qed.

Lemma missing_target_no_change_witness :
  retry {[1%Z := errored_transcribed_ep]} (Some 5%Z) false true
    = ({[1%Z := errored_transcribed_ep]}, [MsgEpisodeNotFound 5%Z]).
Proof.
  refine (proj1 (missing_target_no_change {[1%Z := errored_transcribed_ep]} 5%Z false true
                   None None _ _)); [lia|reflexivity].
Defined.




(** X9: [mark_processed], by id or by podcast, never changes which
    episodes [errors] lists: a force-marked episode stays in the error
    listing, and no episode enters or leaves it. *)
Theorem mark_processed_keeps_error_listing (db : store) episode_id podcast reason j :
  In j (errors_listed_ids (mark_processed db episode_id podcast reason).1) <->
  In j (errors_listed_ids db).
Proof.
  rewrite !errors_listed_ids_spec.
  destruct (mark_processed_lookup db episode_id podcast reason j) as [H|H]; rewrite H;
    [done|].
  destruct (db !! j) as [e|]; simpl; split; intros [e' [He' Hlt]]; try done;
    injection He' as <-; eauto.
Qed.






(** ** [digest], further properties *)

(** The "Skipping ... - exceeded max retries" line of the batch loop. *)
Definition skip_msg (ie : Z * episode) : msg := MsgSkipExceeded (substring 0 40 (title ie.2)).

Lemma count_results_split (calls : list (Z * bool)) :
  (count_results true calls + count_results false calls)%nat = length calls.
Proof.
  induction calls as [|[i b] calls IH]; [done|].
  unfold count_results in *. destruct b; simpl; lia.
Qed.

Lemma digest_loop_msgs summarize now (eps : list (Z * episode)) (db : store) skip R p f :
  let o := digest_loop summarize now db eps skip R p f in
  b_msgs o = map skip_msg (List.filter (fun ie => negb (eligible R ie)) eps) /\
  length (b_calls o) = length (List.filter (eligible R) eps) /\
  b_processed o = (p + count_results true (b_calls o))%nat /\
  b_failed o = (f + count_results false (b_calls o))%nat.
Proof.
  revert db p f. induction eps as [|[i e] rest IH]; intros db p f; simpl;
    [repeat split; unfold count_results; simpl; lia || reflexivity|].
  destruct (Z.leb_spec R (error_count e)) as [Hle|Hlt].
  - assert (Hf : eligible R (i, e) = false) by (apply Z.ltb_ge; simpl; lia).
    rewrite Hf. simpl. destruct (IH db p f) as (Hm & Hl & Hp & Hf').
    repeat split; try done. by rewrite Hm.
  - assert (Ht : eligible R (i, e) = true) by (apply Z.ltb_lt; simpl; lia).
    rewrite Ht. simpl.
    destruct (generate_summary summarize now db i skip) as [result db1]. simpl.
    destruct (IH db1 (if result then S p else p) (if result then f else S f))
      as (Hm & Hl & Hp & Hf').
    repeat split; [done|simpl; by rewrite Hl| |];
      unfold count_results in *; [rewrite Hp|rewrite Hf']; destruct result; simpl; lia.
Qed.

(** What a batch run of [digest] calls, and what it leaves alone. *)
Lemma digest_batch_calls summarize now (db : store) episode_id skip R :
  py_truthy_int episode_id = None ->
  let '(db', _, calls) := digest summarize now db episode_id skip R in
  (forall i, In i (map fst calls) ->
     exists e, db !! i = Some e /\ status e = "transcribed" /\ (error_count e < R)%Z) /\
  (forall i, ~ In i (map fst calls) -> db' !! i = db !! i) /\
  (forall i, In (i, true) calls -> exists e, db' !! i = Some e /\ status e = "processed").
Proof.
  intros Hid. unfold digest. rewrite Hid.
  destruct (get_episodes_by_status db "transcribed") as [|x xs] eqn:E.
  - split; [intros ? []|]. split; [done|intros ? []].
  - rewrite <- E.
    destruct (digest_loop_props summarize now (get_episodes_by_status db "transcribed") db
                skip R 0 0 (nodup_keys_by_status db "transcribed"))
      as (Hcalls & Hframe & Hsucc & _).
    split; [|split; [exact Hframe|exact Hsucc]].
    intros i Hin. rewrite Hcalls in Hin. by apply in_eligible_keys in Hin.
Qed.

(** X11: [digest --episode-id I] (non-zero) bypasses the retry ceiling:
    an existing transcribed episode is summarized whatever its
    [error_count] and [max_retries] (only [--skip-errors] with a previous
    error stops it), and on success it is [processed] with the new
    summary and reported as processed. *)
Theorem digest_single_ignores_ceiling summarize now (db : store) i skip R e a :
  i <> 0%Z -> db !! i = Some e -> status e = "transcribed" ->
  (skip = false \/ (error_count e <= 0)%Z) -> summarize i e = StageSuccess a ->
  digest summarize now db (Some i) skip R =
    (record_success db i "processed" a, [MsgEpisodeProcessed i], [(i, true)]).
Proof.
  intros Hi He Hs Hsk Hsum.
  assert (Ht : py_truthy_int (Some i) = Some i).
  { unfold py_truthy_int. by destruct (Z.eqb_spec i 0). }
  unfold digest, generate_summary. rewrite Ht, He, Hs. simpl.
  assert (Hn : (skip && Z.ltb 0 (error_count e))%bool = false).
  { destruct Hsk as [->|Hle]; [done|]. destruct (Z.ltb_spec 0 (error_count e)); [lia|].
    by destruct skip. }
  rewrite Hn, Hsum. reflexivity.
Qed.

Lemma digest_single_ignores_ceiling_witness :
  digest always_succeeds 0%Z {[3%Z := other_show_ep]} (Some 3%Z) false 1%Z =
    (record_success {[3%Z := other_show_ep]} 3%Z "processed" "summary",
     [MsgEpisodeProcessed 3%Z], [(3%Z, true)]).
Proof.
  apply (digest_single_ignores_ceiling always_succeeds 0%Z {[3%Z := other_show_ep]} 3%Z false
           1%Z other_show_ep "summary"); try reflexivity; [lia|by left].
Defined.

(** X12: the report of a [digest] batch run: one "Skipping" line for
    each transcribed episode at or over the retry ceiling, in order,
    then "Processed [p]" and, when [f > 0], the failure count [f], where
    [p + f] is the number of transcribed episodes under the ceiling. *)
Theorem digest_batch_report summarize now (db : store) episode_id skip R :
  py_truthy_int episode_id = None -> get_episodes_by_status db "transcribed" <> [] ->
  exists p f,
    (digest summarize now db episode_id skip R).1.2 =
      (map skip_msg (List.filter (fun ie => negb (eligible R ie))
                       (get_episodes_by_status db "transcribed"))
       ++ [MsgProcessedN p] ++ (if Nat.ltb 0 f then [MsgFailedN f] else []))%list /\
    (p + f)%nat = length (List.filter (eligible R) (get_episodes_by_status db "transcribed")).
Proof.
  intros Hid Hne. unfold digest. rewrite Hid.
  destruct (get_episodes_by_status db "transcribed") as [|x xs] eqn:E; [done|].
  rewrite <- E.
  destruct (digest_loop_msgs summarize now (get_episodes_by_status db "transcribed") db
              skip R 0 0) as (Hm & Hl & Hp & Hf).
  set (o := digest_loop _ _ _ _ _ _ _ _) in *.
  exists (b_processed o), (b_failed o). simpl. rewrite Hm. split; [done|].
  rewrite Hp, Hf, <- Hl, <- (count_results_split (b_calls o)). lia.
Qed.

Lemma digest_batch_report_witness :
  exists p f,
    (digest always_succeeds 0%Z {[1%Z := healthy_example_ep; 3%Z := other_show_ep]} None
       false 1%Z).1.2 =
      (map skip_msg (List.filter (fun ie => negb (eligible 1%Z ie))
         (get_episodes_by_status {[1%Z := healthy_example_ep; 3%Z := other_show_ep]}
            "transcribed"))
       ++ [MsgProcessedN p] ++ (if Nat.ltb 0 f then [MsgFailedN f] else []))%list.
Proof.
  destruct (digest_batch_report always_succeeds 0%Z
              {[1%Z := healthy_example_ep; 3%Z := other_show_ep]} None false 1%Z eq_refl)
    as (p & f & H & _); [vm_compute; discriminate|].
  by exists p, f.
Defined.

(** X13: a [digest] batch run never touches an episode whose status is
    not [transcribed]: such an episode is not summarized and is left as
    it was. *)
Theorem digest_batch_only_transcribed summarize now (db : store) episode_id skip R i e :
  py_truthy_int episode_id = None -> db !! i = Some e -> status e <> "transcribed" ->
  let '(db', _, calls) := digest summarize now db episode_id skip R in
  ~ In i (map fst calls) /\ db' !! i = Some e.
Proof.
  intros Hid He Hs.
  pose proof (digest_batch_calls summarize now db episode_id skip R Hid) as H.
  destruct (digest summarize now db episode_id skip R) as [[db' ms] calls].
  destruct H as (Hc & Hfr & _).
  assert (Hn : ~ In i (map fst calls)).
  { intros Hin. apply Hc in Hin as (e0 & He0 & Hs0 & _). rewrite He in He0. congruence. }
  split; [done|]. by rewrite Hfr.
Qed.

Lemma digest_batch_only_transcribed_witness :
  let '(db', _, calls) := digest always_succeeds 0%Z
                            {[0%Z := clean_processed_ep; 1%Z := healthy_example_ep]}
                            None false 3%Z in
  db' !! 0%Z = Some clean_processed_ep.
Proof.
  pose proof (digest_batch_only_transcribed always_succeeds 0%Z
                {[0%Z := clean_processed_ep; 1%Z := healthy_example_ep]} None false 3%Z
                0%Z clean_processed_ep eq_refl eq_refl ltac:(discriminate)) as H.
  destruct (digest always_succeeds 0%Z _ None false 3%Z) as [[db' ms] calls].
  exact (proj2 H).
Defined.

(** X14: re-running [digest] in batch mode never summarizes again an
    episode that the previous batch run summarized successfully,
    whatever the executor does on the second run. *)
Theorem digest_rerun_skips_succeeded summarize1 summarize2 now1 now2 (db : store)
    episode_id skip R :
  py_truthy_int episode_id = None ->
  let '(db1, _, calls1) := digest summarize1 now1 db episode_id skip R in
  let '(_, _, calls2) := digest summarize2 now2 db1 episode_id skip R in
  forall i, In (i, true) calls1 -> ~ In i (map fst calls2).
Proof.
  intros Hid.
  pose proof (digest_batch_calls summarize1 now1 db episode_id skip R Hid) as H1.
  destruct (digest summarize1 now1 db episode_id skip R) as [[db1 ms1] calls1].
  destruct H1 as (_ & _ & Hsucc).
  pose proof (digest_batch_calls summarize2 now2 db1 episode_id skip R Hid) as H2.
  destruct (digest summarize2 now2 db1 episode_id skip R) as [[db2 ms2] calls2].
  destruct H2 as (Hc & _ & _).
  intros i Hi Hin. apply Hsucc in Hi as (e & He & Hs).
  apply Hc in Hin as (e' & He' & Hs' & _). rewrite He in He'. injection He' as <-.
  rewrite Hs in Hs'. discriminate.
Qed.

Lemma digest_rerun_skips_succeeded_witness :
  let '(db1, _, calls1) := digest always_succeeds 0%Z {[1%Z := healthy_example_ep]} None false 3%Z in
  let '(_, _, calls2) := digest first_succeeds 1%Z db1 None false 3%Z in
  ~ In 1%Z (map fst calls2).
Proof.
  pose proof (digest_rerun_skips_succeeded always_succeeds first_succeeds 0%Z 1%Z
                {[1%Z := healthy_example_ep]} None false 3%Z eq_refl) as H.
  destruct (digest always_succeeds 0%Z _ None false 3%Z) as [[db1 ms1] calls1] eqn:Hd1.
  destruct (digest first_succeeds 1%Z db1 None false 3%Z) as [[db2 ms2] calls2].
  apply H. vm_compute in Hd1. injection Hd1 as _ _ <-. left. reflexivity.
Defined.

(** ** [export] and [write], further properties *)




(** X16: [write] generates a blog post, on the given topic, exactly when
    the date parses and there are summaries for it; the post is then
    saved and the social posts generated, in that order. *)
Theorem write_generates_iff topic date_opt today summaries_by_date t :
  (In (ActGenerateBlogPost t) (write topic date_opt today summaries_by_date) <->
   t = topic /\ exists d, parse_date_option date_opt today = Some d /\ summaries_by_date d <> []) /\
  (In (ActGenerateBlogPost t) (write topic date_opt today summaries_by_date) ->
   exists d, write topic date_opt today summaries_by_date =
     [ActLoadConfig; ActQuerySummaries d; ActGenerateBlogPost topic; ActSaveBlogPost;
      ActGenerateSocialPosts]).
Proof.
  unfold write.
  destruct (parse_date_option date_opt today) as [d|]; simpl.
  - destruct (summaries_by_date d) as [|s ss] eqn:Hs; simpl.
    + split; [|intros [H|[H|[H|[]]]]; discriminate H].
      split; [intros [H|[H|[H|[]]]]; discriminate H|].
      intros (_ & d' & Hd & Hne). injection Hd as <-. by rewrite Hs in Hne.
    + split; [|intros _; by exists d].
      split.
      * intros [H|[H|[H|[H|[H|[]]]]]]; try discriminate H. injection H as ->.
        split; [done|]. exists d. by rewrite Hs.
      * intros (-> & _). tauto.
  - split; [|intros [H|[H|[]]]; discriminate H].
    split; [intros [H|[H|[]]]; discriminate H|intros (_ & d & [=] & _)].
Qed.

Lemma write_generates_iff_witness :
  exists d, write "AI agents" None (2024, 1, 5)%Z (fun _ => ["summary"]) =
    [ActLoadConfig; ActQuerySummaries d; ActGenerateBlogPost "AI agents"; ActSaveBlogPost;
     ActGenerateSocialPosts].
Proof.
  apply (proj2 (write_generates_iff "AI agents" None (2024, 1, 5)%Z (fun _ => ["summary"])
                  "AI agents")).
  simpl. tauto.
Defined.

(** ** [migrate_database], further properties *)




(** ** [strptime] on canonical dates *)

(** The ASCII digit of [0 <= k <= 9]. *)
Definition digit (k : Z) : ascii := ascii_of_nat (48 + Z.to_nat k).

(** [strftime('%Y-%m-%d')] for a year of four digits, as the file names
    of [export] spell a date. *)
Definition format_ymd (y m d : Z) : string :=
  string_of_list_ascii
    [digit (y / 10 / 10 / 10); digit (y / 10 / 10 mod 10); digit (y / 10 mod 10); digit (y mod 10);
     "-"%char; digit (m / 10); digit (m mod 10); "-"%char; digit (d / 10); digit (d mod 10)].

Lemma digit_spec k : (0 <= k <= 9)%Z -> is_digit (digit k) = true /\ dval (digit k) = k.
Proof.
  intros Hk.
  assert (H : (k = 0 \/ k = 1 \/ k = 2 \/ k = 3 \/ k = 4 \/ k = 5 \/ k = 6 \/ k = 7 \/ k = 8
               \/ k = 9)%Z) by lia.
  repeat destruct H as [->|H]; try subst k; split; reflexivity.
Qed.

Lemma re_Y_digits y r :
  (1000 <= y <= 9999)%Z ->
  re_Y (digit (y / 10 / 10 / 10) :: digit (y / 10 / 10 mod 10) :: digit (y / 10 mod 10)
        :: digit (y mod 10) :: r) = [(y, r)].
Proof.
  intros Hy.
  pose proof (Z.div_mod y 10 ltac:(lia)) as E1.
  pose proof (Z.mod_pos_bound y 10 ltac:(lia)) as B1.
  pose proof (Z.div_mod (y / 10) 10 ltac:(lia)) as E2.
  pose proof (Z.mod_pos_bound (y / 10) 10 ltac:(lia)) as B2.
  pose proof (Z.div_mod (y / 10 / 10) 10 ltac:(lia)) as E3.
  pose proof (Z.mod_pos_bound (y / 10 / 10) 10 ltac:(lia)) as B3.
  set (a := (y / 10 / 10 / 10)%Z) in *. set (b := (y / 10 / 10 mod 10)%Z) in *.
  set (c := (y / 10 mod 10)%Z) in *. set (e := (y mod 10)%Z) in *.
  set (y2 := (y / 10 / 10)%Z) in *. set (y1 := (y / 10)%Z) in *.
  assert (Ha : (0 <= a <= 9)%Z) by lia.
  destruct (digit_spec a Ha) as [Da Va]. destruct (digit_spec b ltac:(lia)) as [Db Vb].
  destruct (digit_spec c ltac:(lia)) as [Dc Vc]. destruct (digit_spec e ltac:(lia)) as [De Ve].
  unfold re_Y. cbn [forallb]. rewrite Da, Db, Dc, De. cbn [andb]. rewrite Va, Vb, Vc, Ve.
  do 3 f_equal. lia.
Qed.

Lemma re_m_two_digits m r :
  (1 <= m <= 12)%Z -> exists rest, re_m (digit (m / 10) :: digit (m mod 10) :: r) = (m, r) :: rest.
Proof.
  intros Hm.
  assert (H : (m = 1 \/ m = 2 \/ m = 3 \/ m = 4 \/ m = 5 \/ m = 6 \/ m = 7 \/ m = 8 \/ m = 9
               \/ m = 10 \/ m = 11 \/ m = 12)%Z) by lia.
  repeat destruct H as [->|H]; try subst m; eexists; reflexivity.
Qed.

Lemma re_d_two_digits d r :
  (1 <= d <= 31)%Z -> exists rest, re_d (digit (d / 10) :: digit (d mod 10) :: r) = (d, r) :: rest.
Proof.
  intros Hd.
  assert (H : exists k, d = Z.of_nat k /\ (1 <= k <= 31)%nat) by (exists (Z.to_nat d); lia).
  destruct H as [k [-> Hk]].
  do 32 (destruct k as [|k]; [try lia; eexists; reflexivity|]). lia.
Qed.

(** X18: [datetime.strptime(s, '%Y-%m-%d')] reads back every valid date
    with a four-digit year written in canonical [YYYY-MM-DD] form (the
    form [strftime('%Y-%m-%d')] writes in [export]'s file names): the
    round trip gives the same year, month and day. *)
Theorem strptime_format_roundtrip y m d :
  (1000 <= y <= 9999)%Z -> valid_date y m d = true ->
  strptime_ymd (format_ymd y m d) = Some (y, m, d).
Proof.
  intros Hy Hv.
  assert (Hr : (1 <= m <= 12 /\ 1 <= d <= 31)%Z).
  { unfold valid_date in Hv. rewrite !andb_true_iff, !Z.leb_le in Hv.
    destruct Hv as [[[[[_ _] ?] ?] ?] Hd]. split; [lia|]. split; [lia|].
    unfold days_in_month in Hd. repeat destruct (_ : bool) in Hd; lia. }
  destruct Hr as [Hm Hd].
  destruct (re_d_two_digits d [] Hd) as [rd Ed].
  destruct (re_m_two_digits m ("-"%char :: digit (d / 10) :: digit (d mod 10) :: []) Hm)
    as [rm Em].
  unfold strptime_ymd, format_ymd. rewrite list_ascii_of_string_of_list_ascii.
  unfold re_ymd. rewrite re_Y_digits by exact Hy.
  cbn [flat_map re_dash fst snd app Ascii.eqb Bool.eqb andb].
  rewrite Em. cbn [flat_map re_dash fst snd app Ascii.eqb Bool.eqb andb].
  rewrite Ed. cbn [map app fst snd]. rewrite Hv. reflexivity.
Qed.

Lemma strptime_format_roundtrip_witness :
  strptime_ymd (format_ymd 2024 2 29) = Some (2024, 2, 29)%Z.
Proof. apply strptime_format_roundtrip; [lia|reflexivity]. Defined.

(* ================================================================= *)
(** ** [init] (cli.py lines 499-531): directories and configuration *)

(** The part of the file system [init] touches: the directories, and
    the regular files with their contents (paths relative to the working
    directory). The database initialisation ([P3Database("data/p3.duckdb")])
    belongs to p3/database.py and is not part of this model. *)
Record fs := mkFs {
  fs_dirs : gset string;
  fs_files : gmap string string
}.

(** The paths [Path(d).mkdir(parents=True)] creates, outermost first:
    ["data/audio"] gives ["data"; "data/audio"]. *)
Fixpoint path_prefixes_from (acc : string) (s : string) : list string :=
  match s with
  | EmptyString => [acc]
  | String c s' =>
      if Ascii.eqb c "/" then acc :: path_prefixes_from (acc ++ "/") s'
      else path_prefixes_from (acc ++ String c EmptyString) s'
  end.

Definition path_prefixes (d : string) : list string := path_prefixes_from EmptyString d.

Definition is_file (files : gmap string string) (p : string) : bool :=
  match files !! p with Some _ => true | None => false end.

(** [Path.exists()]: a file or a directory. *)
Definition path_exists (f : fs) (p : string) : bool :=
  match fs_files f !! p with Some _ => true | None => bool_decide (p ∈ fs_dirs f) end.

(** [Path(d).mkdir(parents=True, exist_ok=True)]: [None] where it raises,
    i.e. when the path or one of its parents is a regular file. *)
Definition mkdir_p (f : fs) (d : string) : option fs :=
  if existsb (is_file (fs_files f)) (path_prefixes d) then None
  else Some (mkFs (list_to_set (path_prefixes d) ∪ fs_dirs f) (fs_files f)).

Definition init_dirs : list string := ["data"; "config"; "logs"; "data/audio"; "exports"; "blog_posts"].

Definition mkdirs (ds : list string) (f : fs) : option fs :=
  fold_left (fun acc d => match acc with None => None | Some g => mkdir_p g d end) ds (Some f).

(** [if not config_path.exists() and example_path.exists():
    shutil.copy(example_path, config_path)]; the copy raises when the
    example is a directory. *)
Definition copy_example_config (f : fs) : option fs :=
  if (negb (path_exists f "config/feeds.yaml") && path_exists f "config/feeds.yaml.example")%bool
  then match fs_files f !! "config/feeds.yaml.example" with
       | Some c => Some (mkFs (fs_dirs f) (<[ "config/feeds.yaml" := c ]> (fs_files f)))
       | None => None
       end
  else Some f.

(** [init], up to the database step; [None] where it raises. *)
Definition init_fs (f : fs) : option fs :=
  match mkdirs init_dirs f with
  | None => None
  | Some f1 => copy_example_config f1
  end.

(** ** [init] properties *)

Lemma mkdirs_none ds : fold_left (fun (acc : option fs) d =>
  match acc with None => None | Some g => mkdir_p g d end) ds None = None.
Proof. induction ds; simpl; auto. Qed.

Lemma mkdirs_spec ds f :
  mkdirs ds f =
  if existsb (is_file (fs_files f)) (flat_map path_prefixes ds) then None
  else Some (mkFs (list_to_set (flat_map path_prefixes ds) ∪ fs_dirs f) (fs_files f)).
Proof.
  unfold mkdirs. revert f. induction ds as [|d ds IH]; intros f; simpl.
  - f_equal. destruct f as [dirs files]. simpl. f_equal. set_solver.
  - unfold mkdir_p at 2. rewrite existsb_app.
    destruct (existsb (is_file (fs_files f)) (path_prefixes d)); simpl; [apply mkdirs_none|].
    rewrite IH. simpl. destruct (existsb _ _); [done|].
    f_equal. f_equal. rewrite list_to_set_app_L. set_solver.
Qed.

Definition init_prefixes : list string := flat_map path_prefixes init_dirs.

Lemma init_fs_spec f :
  init_fs f =
  if existsb (is_file (fs_files f)) init_prefixes then None
  else copy_example_config (mkFs (list_to_set init_prefixes ∪ fs_dirs f) (fs_files f)).
Proof. unfold init_fs. rewrite mkdirs_spec. fold init_prefixes. by destruct (existsb _ _). Qed.

Lemma copy_example_config_files f f' p c :
  copy_example_config f = Some f' -> fs_files f' !! p = Some c ->
  fs_files f !! p = Some c \/
  (p = "config/feeds.yaml" /\ fs_files f !! p = None /\
   fs_files f !! "config/feeds.yaml.example" = Some c).
Proof.
  unfold copy_example_config, path_exists.
  destruct (fs_files f !! "config/feeds.yaml") as [c0|] eqn:Hc; simpl;
    [intros [= <-]; auto|].
  match goal with |- context [if ?b then _ else _] => destruct b end; simpl; [|intros [= <-]; auto].
  destruct (fs_files f !! "config/feeds.yaml.example") as [ce|] eqn:He; [|done].
  intros [= <-]. simpl. destruct (decide (p = "config/feeds.yaml")) as [->|Hne].
  - rewrite lookup_insert_eq. intros [= <-]. right. auto.
  - rewrite lookup_insert_ne by congruence. auto.
Qed.

Lemma copy_example_config_keeps f f' p c :
  copy_example_config f = Some f' -> fs_files f !! p = Some c -> fs_files f' !! p = Some c.
Proof.
  unfold copy_example_config, path_exists. intros Hc Hp.
  destruct (fs_files f !! "config/feeds.yaml") as [c0|] eqn:Hcfg; simpl in Hc;
    [by injection Hc as <-|].
  destruct (bool_decide ("config/feeds.yaml" ∈ fs_dirs f)); simpl in Hc; [by injection Hc as <-|].
  destruct (match fs_files f !! "config/feeds.yaml.example" with
            | Some _ => true | None => _ end); [|by injection Hc as <-].
  destruct (fs_files f !! "config/feeds.yaml.example"); [|done].
  injection Hc as <-. simpl. rewrite lookup_insert_ne; [done|]. intros <-. congruence.
Qed.

Lemma copy_example_config_dirs f f' :
  copy_example_config f = Some f' -> fs_dirs f' = fs_dirs f.
Proof.
  unfold copy_example_config.
  destruct (_ && _)%bool; [destruct (fs_files f !! _); [intros [= <-]|done]|intros [= <-]];
    reflexivity.
Qed.

Lemma init_fs_files_origin f f' p c :
  init_fs f = Some f' -> fs_files f' !! p = Some c ->
  fs_files f !! p = Some c \/
  (p = "config/feeds.yaml" /\ fs_files f !! p = None /\
   fs_files f !! "config/feeds.yaml.example" = Some c).
Proof.
  rewrite init_fs_spec. destruct (existsb _ _); [done|].
  intros Hc Hp. exact (copy_example_config_files _ f' p c Hc Hp).
Qed.

(** X19: [init] never overwrites or removes a file: every file keeps
    its contents, and the only file it can create is
    [config/feeds.yaml], with the contents of
    [config/feeds.yaml.example], when it did not exist; afterwards the
    six directories exist. *)
Theorem init_preserves_files (f f' : fs) :
  init_fs f = Some f' ->
  (forall p c, fs_files f !! p = Some c -> fs_files f' !! p = Some c) /\
  (forall p c, fs_files f' !! p = Some c ->
     fs_files f !! p = Some c \/
     (p = "config/feeds.yaml" /\ fs_files f !! p = None /\
      fs_files f !! "config/feeds.yaml.example" = Some c)) /\
  (forall d, In d init_dirs -> d ∈ fs_dirs f').
Proof.
  rewrite init_fs_spec. destruct (existsb _ _); [done|].
  set (f1 := mkFs _ _). intros Hc.
  pose proof (copy_example_config_dirs f1 f' Hc) as Hdirs.
  split; [|split].
  - intros p c Hp. exact (copy_example_config_keeps f1 f' p c Hc Hp).
  - intros p c Hp. exact (copy_example_config_files f1 f' p c Hc Hp).
  - intros d Hd. rewrite Hdirs. unfold f1. cbn [fs_dirs]. apply elem_of_union_l, elem_of_list_to_set.
    unfold init_prefixes. apply list_elem_of_In, in_flat_map. exists d. split; [done|].
    simpl in Hd. repeat destruct Hd as [<-|Hd]; try contradiction; vm_compute; tauto.
Qed.

Lemma init_preserves_files_witness :
  let f := mkFs {[ "data" ]} {[ "config/feeds.yaml.example" := "feeds: []" ]} in
  exists f', init_fs f = Some f' /\ fs_files f' !! "config/feeds.yaml.example" = Some "feeds: []".
Proof.
  cbv zeta. eexists. split; [reflexivity|].
  apply (init_preserves_files (mkFs {[ "data" ]} {[ "config/feeds.yaml.example" := "feeds: []" ]}));
    [reflexivity|].
  reflexivity.
Defined.

(** X20: [init] is idempotent: running it again on the result of a
    successful run succeeds and changes nothing (no directory added, no
    file written). *)
Theorem init_idempotent (f f' : fs) :
  init_fs f = Some f' -> init_fs f' = Some f'.
Proof.
  intros Hc. pose proof (fun p c => init_fs_files_origin f f' p c Hc) as Hback.
  revert Hc. rewrite init_fs_spec.
  destruct (existsb (is_file (fs_files f)) init_prefixes) eqn:Hpre; [done|].
  set (f1 := mkFs _ _). intros Hc.
  (* the second [mkdirs] finds every prefix a directory and none a file *)
  assert (Hnf : existsb (is_file (fs_files f')) init_prefixes = false).
  { apply not_true_iff_false. intros Hex. apply existsb_exists in Hex as [p [Hp Hf]].
    unfold is_file in Hf. destruct (fs_files f' !! p) as [c|] eqn:Hpc; [|done].
    destruct (Hback p c Hpc) as [Hold|(-> & _ & _)].
    - apply not_true_iff_false in Hpre. apply Hpre, existsb_exists. exists p.
      split; [done|]. unfold is_file. by rewrite Hold.
    - vm_compute in Hp. repeat destruct Hp as [Hp|Hp]; try discriminate Hp; contradiction. }
  assert (Hd1 : fs_dirs f' = fs_dirs f1).
  { revert Hc. unfold copy_example_config.
    destruct (_ && _)%bool; [destruct (fs_files f1 !! _); [intros [= <-]|done]|intros [= <-]];
      reflexivity. }
  assert (Hsame : mkFs (list_to_set init_prefixes ∪ fs_dirs f') (fs_files f') = f').
  { destruct f' as [dirs' files']. simpl in Hd1 |- *. rewrite Hd1. f_equal. simpl. set_solver. }
  rewrite init_fs_spec, Hnf, Hsame.
  revert Hc. unfold copy_example_config at 1.
  destruct (negb (path_exists f1 "config/feeds.yaml") && path_exists f1 "config/feeds.yaml.example")%bool
    eqn:Hcopy.
  - destruct (fs_files f1 !! "config/feeds.yaml.example") as [c|]; [|done].
    intros [= <-]. unfold copy_example_config, path_exists. simpl.
    by rewrite lookup_insert_eq.
  - intros [= <-]. unfold copy_example_config. by rewrite Hcopy.
Qed.

Lemma init_idempotent_witness :
  init_fs (mkFs {[ "data"; "config" ]} {[ "config/feeds.yaml.example" := "feeds: []" ]})
  = Some (mkFs (list_to_set init_prefixes ∪ {[ "data"; "config" ]})
               (<[ "config/feeds.yaml" := "feeds: []" ]> {[ "config/feeds.yaml.example" := "feeds: []" ]})) /\
  init_fs (mkFs (list_to_set init_prefixes ∪ {[ "data"; "config" ]})
               (<[ "config/feeds.yaml" := "feeds: []" ]> {[ "config/feeds.yaml.example" := "feeds: []" ]}))
  = Some (mkFs (list_to_set init_prefixes ∪ {[ "data"; "config" ]})
               (<[ "config/feeds.yaml" := "feeds: []" ]> {[ "config/feeds.yaml.example" := "feeds: []" ]})).
Proof.
  assert (H : init_fs (mkFs {[ "data"; "config" ]} {[ "config/feeds.yaml.example" := "feeds: []" ]})
    = Some (mkFs (list_to_set init_prefixes ∪ {[ "data"; "config" ]})
               (<[ "config/feeds.yaml" := "feeds: []" ]> {[ "config/feeds.yaml.example" := "feeds: []" ]})))
    by reflexivity.
  split; [exact H|]. exact (init_idempotent _ _ H).
Defined.
